(** * CouncilOfDicks: the MCP client example (scripts/mcp-client-example.py)

    A shallow embedding of [CouncilMcpClient] and [main], together with the
    parts of the Python runtime the client leans on: [str] as a sequence of
    code points, [json.dumps] / [json.loads] with their default arguments,
    UTF-8 [encode] / [decode], [str.strip], and a blocking TCP socket whose
    answers come from an environment.

    Idealisations, stated once:
    - Python floats are not part of the value type.  [json.loads] meeting a
      float literal (or NaN / Infinity) yields [Unmodelled FloatValue], a
      verdict distinct from every Python outcome.
    - The interpreter's recursion limit and the limit on the number of
      digits of an integer literal are not modelled.
    - [print] is recorded as a line of structured data, not as text. *)

From Stdlib Require Import List ZArith NArith Bool Ascii String Lia.
From Stdlib.Strings Require Import Byte.
From Stdlib Require Import DecimalFacts DecimalPos DecimalN DecimalZ.
Import ListNotations.

Set Implicit Arguments.
Local Open Scope N_scope.

(** ** Python [str]: a sequence of Unicode code points *)

Definition pystr := list N.

Definition ord (a : ascii) : N := N_of_ascii a.

(** A literal of the source, written as a Rocq string of ASCII characters. *)
Definition py (s : string) : pystr := map ord (list_ascii_of_string s).

(** JSON text in statements is written with an apostrophe where the wire has
    a double quote: [jtext "{'id': 1}"] is the text [{"id": 1}]. *)
Definition jtext (s : string) : pystr :=
  map (fun c => if c =? 39 then 34 else c) (py s).

Definition QUOTE : N := 34.
Definition BACKSLASH_CH : N := 92.
Definition NEWLINE : N := 10.

Fixpoint pystr_eqb (a b : pystr) : bool :=
  match a, b with
  | [], [] => true
  | x :: a', y :: b' => (x =? y) && pystr_eqb a' b'
  | _, _ => false
  end.

(** A code point of a [str]. *)
Definition is_code_point (c : N) : bool := c <? 0x110000.
Definition is_high_surrogate (c : N) : bool := (0xD800 <=? c) && (c <=? 0xDBFF).
Definition is_low_surrogate (c : N) : bool := (0xDC00 <=? c) && (c <=? 0xDFFF).
Definition is_surrogate (c : N) : bool := (0xD800 <=? c) && (c <=? 0xDFFF).

(** ** Python values that [json] moves: None, bool, int, str, list, dict.
    A dict keeps insertion order and has string keys. *)

Unset Elimination Schemes.
Inductive pyval : Type :=
| PyNone
| PyBool (b : bool)
| PyInt (z : Z)
| PyStr (s : pystr)
| PyList (l : list pyval)
| PyDict (d : list (pystr * pyval)).
Set Elimination Schemes.

(** [d[k] = v] on a dict: overwrite in place, or append a new key. *)
Fixpoint dict_set (d : list (pystr * pyval)) (k : pystr) (v : pyval)
  : list (pystr * pyval) :=
  match d with
  | [] => [(k, v)]
  | (k', v') :: d' =>
      if pystr_eqb k' k then (k', v) :: d' else (k', v') :: dict_set d' k v
  end.

Fixpoint dict_get (d : list (pystr * pyval)) (k : pystr) : option pyval :=
  match d with
  | [] => None
  | (k', v') :: d' => if pystr_eqb k' k then Some v' else dict_get d' k
  end.

(** [dict(pairs)]: later pairs overwrite earlier ones. *)
Definition dict_of_pairs (pairs : list (pystr * pyval)) : list (pystr * pyval) :=
  fold_left (fun d kv => dict_set d (fst kv) (snd kv)) pairs [].

(** Truth value of an object, as [if params:] tests it. *)
Definition truthy (v : pyval) : bool :=
  match v with
  | PyNone => false
  | PyBool b => b
  | PyInt z => negb (Z.eqb z 0)
  | PyStr s => match s with [] => false | _ => true end
  | PyList l => match l with [] => false | _ => true end
  | PyDict d => match d with [] => false | _ => true end
  end.

(** ** Outcomes: a value, a Python exception, or no answer from the model *)

Inductive exn : Type :=
| AttributeError
| OSError (errno : Z)
| UnicodeEncodeError
| UnicodeDecodeError
| JSONDecodeError
| TypeError
| KeyError
| SystemExit (code : Z).

Definition EBADF : Z := 9.
Definition EPIPE : Z := 32.
Definition ECONNRESET : Z := 104.
Definition ENOTCONN : Z := 107.
Definition ETIMEDOUT : Z := 110.
Definition ECONNREFUSED : Z := 111.
Definition EHOSTUNREACH : Z := 113.
Definition ENETUNREACH : Z := 101.

Inductive gap : Type := FloatValue | OutOfFuel.

Inductive res (A : Type) : Type :=
| Ret (a : A)
| Raise (e : exn)
| Unmodelled (g : gap).
Arguments Raise {A} e.
Arguments Unmodelled {A} g.

Definition rbind {A B} (m : res A) (k : A -> res B) : res B :=
  match m with
  | Ret a => k a
  | Raise e => Raise e
  | Unmodelled g => Unmodelled g
  end.

Definition rmap {A B} (f : A -> B) (m : res A) : res B :=
  rbind m (fun a => Ret (f a)).

Declare Scope res_scope.
Delimit Scope res_scope with res.
Notation "x <- m ;; k" := (rbind m (fun x => k))
  (at level 61, m at next level, right associativity) : res_scope.
Notation "' p <- m ;; k" := (rbind m (fun x => match x with p => k end))
  (at level 61, p pattern, m at next level, right associativity) : res_scope.
Local Open Scope res_scope.

(** ** [json.dumps(obj)] with the default arguments
    (ensure_ascii, separators [", "] and [": "], no indent) *)

Definition hex_digit (n : N) : N :=
  if n <? 10 then 48 + n else 87 + n.

(** ['\\u{0:04x}'.format(n)] *)
Definition u_escape (n : N) : pystr :=
  [BACKSLASH_CH; 117;
   hex_digit (N.land (N.shiftr n 12) 0xF);
   hex_digit (N.land (N.shiftr n 8) 0xF);
   hex_digit (N.land (N.shiftr n 4) 0xF);
   hex_digit (N.land n 0xF)].

(** The replacement of one character by [py_encode_basestring_ascii]:
    ESCAPE_ASCII matches a backslash, a double quote and everything
    outside [' '..'~']. *)
Definition escape_char (c : N) : pystr :=
  if c =? 34 then [BACKSLASH_CH; 34]
  else if c =? 92 then [BACKSLASH_CH; 92]
  else if (32 <=? c) && (c <=? 126) then [c]
  else if c =? 10 then [BACKSLASH_CH; 110]
  else if c =? 13 then [BACKSLASH_CH; 114]
  else if c =? 9 then [BACKSLASH_CH; 116]
  else if c =? 12 then [BACKSLASH_CH; 102]
  else if c =? 8 then [BACKSLASH_CH; 98]
  else if c <? 0x10000 then u_escape c
  else
    let n := c - 0x10000 in
    let s1 := N.lor 0xD800 (N.land (N.shiftr n 10) 0x3FF) in
    let s2 := N.lor 0xDC00 (N.land n 0x3FF) in
    u_escape s1 ++ u_escape s2.

Definition encode_basestring_ascii (s : pystr) : pystr :=
  QUOTE :: flat_map escape_char s ++ [QUOTE].

(** [int.__repr__]: the decimal digits, with a minus sign below zero. *)
Fixpoint uint_chars (d : Decimal.uint) : pystr :=
  match d with
  | Decimal.Nil => []
  | Decimal.D0 d => 48 :: uint_chars d
  | Decimal.D1 d => 49 :: uint_chars d
  | Decimal.D2 d => 50 :: uint_chars d
  | Decimal.D3 d => 51 :: uint_chars d
  | Decimal.D4 d => 52 :: uint_chars d
  | Decimal.D5 d => 53 :: uint_chars d
  | Decimal.D6 d => 54 :: uint_chars d
  | Decimal.D7 d => 55 :: uint_chars d
  | Decimal.D8 d => 56 :: uint_chars d
  | Decimal.D9 d => 57 :: uint_chars d
  end.

Definition int_repr (z : Z) : pystr :=
  match Z.to_int z with
  | Decimal.Pos d => uint_chars d
  | Decimal.Neg d => 45 :: uint_chars d
  end.

(** [sep.join(parts)] *)
Fixpoint join (sep : pystr) (parts : list pystr) : pystr :=
  match parts with
  | [] => []
  | [p] => p
  | p :: ps => p ++ sep ++ join sep ps
  end.

Definition item_separator : pystr := py ", ".
Definition key_separator : pystr := py ": ".

(** [json.dumps(o, separators=(isep, ksep))] *)
Fixpoint dumps_with (isep ksep : pystr) (o : pyval) : pystr :=
  match o with
  | PyNone => py "null"
  | PyBool true => py "true"
  | PyBool false => py "false"
  | PyInt z => int_repr z
  | PyStr s => encode_basestring_ascii s
  | PyList l => py "[" ++ join isep (map (dumps_with isep ksep) l) ++ py "]"
  | PyDict d =>
      py "{" ++
      join isep
        (map (fun kv => encode_basestring_ascii (fst kv) ++ ksep
                        ++ dumps_with isep ksep (snd kv)) d)
      ++ py "}"
  end.

(** [json.dumps(o)] *)
Definition dumps (o : pyval) : pystr := dumps_with item_separator key_separator o.

(** ** [str.encode()] and [bytes.decode()]: strict UTF-8 *)

Definition byte_of_N (n : N) : byte :=
  match Byte.of_N n with
  | Some b => b
  | None => Byte.x00
  end.

Definition utf8_encode_char (c : N) : res (list byte) :=
  if c <? 0x80 then Ret [byte_of_N c]
  else if c <? 0x800 then
    Ret [byte_of_N (N.lor 0xC0 (N.shiftr c 6));
         byte_of_N (N.lor 0x80 (N.land c 0x3F))]
  else if is_surrogate c then Raise UnicodeEncodeError
  else if c <? 0x10000 then
    Ret [byte_of_N (N.lor 0xE0 (N.shiftr c 12));
         byte_of_N (N.lor 0x80 (N.land (N.shiftr c 6) 0x3F));
         byte_of_N (N.lor 0x80 (N.land c 0x3F))]
  else
    Ret [byte_of_N (N.lor 0xF0 (N.shiftr c 18));
         byte_of_N (N.lor 0x80 (N.land (N.shiftr c 12) 0x3F));
         byte_of_N (N.lor 0x80 (N.land (N.shiftr c 6) 0x3F));
         byte_of_N (N.lor 0x80 (N.land c 0x3F))].

Fixpoint encode (s : pystr) : res (list byte) :=
  match s with
  | [] => Ret []
  | c :: s' =>
      bs <- utf8_encode_char c ;;
      bs' <- encode s' ;;
      Ret (bs ++ bs')
  end.

Definition is_continuation (b : byte) : bool :=
  N.land (Byte.to_N b) 0xC0 =? 0x80.

Definition payload (b : byte) : N := N.land (Byte.to_N b) 0x3F.

Fixpoint decode (bs : list byte) : res pystr :=
  match bs with
  | [] => Ret []
  | b0 :: r0 =>
      let n0 := Byte.to_N b0 in
      if n0 <? 0x80 then rmap (cons n0) (decode r0)
      else if n0 <? 0xC2 then Raise UnicodeDecodeError
      else if n0 <? 0xE0 then
        match r0 with
        | b1 :: r1 =>
            if is_continuation b1
            then rmap (cons (N.lor (N.shiftl (N.land n0 0x1F) 6) (payload b1)))
                      (decode r1)
            else Raise UnicodeDecodeError
        | _ => Raise UnicodeDecodeError
        end
      else if n0 <? 0xF0 then
        match r0 with
        | b1 :: b2 :: r2 =>
            if is_continuation b1 && is_continuation b2
               && negb ((n0 =? 0xE0) && (Byte.to_N b1 <? 0xA0))
               && negb ((n0 =? 0xED) && (0xA0 <=? Byte.to_N b1))
            then rmap (cons (N.lor (N.shiftl (N.land n0 0x0F) 12)
                              (N.lor (N.shiftl (payload b1) 6) (payload b2))))
                      (decode r2)
            else Raise UnicodeDecodeError
        | _ => Raise UnicodeDecodeError
        end
      else if n0 <? 0xF5 then
        match r0 with
        | b1 :: b2 :: b3 :: r3 =>
            if is_continuation b1 && is_continuation b2 && is_continuation b3
               && negb ((n0 =? 0xF0) && (Byte.to_N b1 <? 0x90))
               && negb ((n0 =? 0xF4) && (0x90 <=? Byte.to_N b1))
            then rmap (cons (N.lor (N.shiftl (N.land n0 0x07) 18)
                              (N.lor (N.shiftl (payload b1) 12)
                                 (N.lor (N.shiftl (payload b2) 6) (payload b3)))))
                      (decode r3)
            else Raise UnicodeDecodeError
        | _ => Raise UnicodeDecodeError
        end
      else Raise UnicodeDecodeError
  end.

(** ** [str.strip()] *)

(** [str.isspace] on one character (_PyUnicode_IsWhitespace). *)
Definition isspace (c : N) : bool :=
  ((0x09 <=? c) && (c <=? 0x0D))
  || ((0x1C <=? c) && (c <=? 0x20))
  || (c =? 0x85) || (c =? 0xA0) || (c =? 0x1680)
  || ((0x2000 <=? c) && (c <=? 0x200A))
  || (c =? 0x2028) || (c =? 0x2029) || (c =? 0x202F)
  || (c =? 0x205F) || (c =? 0x3000).

Fixpoint lstrip (s : pystr) : pystr :=
  match s with
  | [] => []
  | c :: s' => if isspace c then lstrip s' else s
  end.

Definition rstrip (s : pystr) : pystr := rev (lstrip (rev s)).

Definition strip (s : pystr) : pystr := rstrip (lstrip s).

(** ** [json.loads(s)] with the default decoder (strict, C scanner) *)

(** WHITESPACE = [ \t\n\r]* *)
Definition is_ws (c : N) : bool :=
  (c =? 32) || (c =? 9) || (c =? 10) || (c =? 13).

Fixpoint skip_ws (s : pystr) : pystr :=
  match s with
  | [] => []
  | c :: s' => if is_ws c then skip_ws s' else s
  end.

Fixpoint startswith (p s : pystr) : bool :=
  match p, s with
  | [], _ => true
  | a :: p', b :: s' => (a =? b) && startswith p' s'
  | _ :: _, [] => false
  end.

Definition hex_value (c : N) : option N :=
  if (48 <=? c) && (c <=? 57) then Some (c - 48)
  else if (97 <=? c) && (c <=? 102) then Some (c - 87)
  else if (65 <=? c) && (c <=? 70) then Some (c - 55)
  else None.

Definition decode_uXXXX (h1 h2 h3 h4 : N) : option N :=
  match hex_value h1, hex_value h2, hex_value h3, hex_value h4 with
  | Some a, Some b, Some c, Some d =>
      Some (N.lor (N.shiftl (N.lor (N.shiftl (N.lor (N.shiftl a 4) b) 4) c) 4) d)
  | _, _, _, _ => None
  end.

(** The BACKSLASH table of the decoder. *)
Definition unescape (esc : N) : option N :=
  if esc =? 34 then Some 34
  else if esc =? 92 then Some 92
  else if esc =? 47 then Some 47
  else if esc =? 98 then Some 8
  else if esc =? 102 then Some 12
  else if esc =? 110 then Some 10
  else if esc =? 114 then Some 13
  else if esc =? 116 then Some 9
  else None.

Definition join_surrogates (uni uni2 : N) : N :=
  0x10000 + N.lor (N.shiftl (uni - 0xD800) 10) (uni2 - 0xDC00).

(** [scanstring(s, end)]: [s] starts right after the opening quote; the
    result is the decoded string and what follows the closing quote. *)
Fixpoint scanstring (s : pystr) : res (pystr * pystr) :=
  match s with
  | [] => Raise JSONDecodeError
  | c :: s1 =>
      if c =? 34 then Ret ([], s1)
      else if c =? 92 then
        match s1 with
        | [] => Raise JSONDecodeError
        | esc :: s2 =>
            if esc =? 117 then
              match s2 with
              | h1 :: h2 :: h3 :: h4 :: s3 =>
                  match decode_uXXXX h1 h2 h3 h4 with
                  | None => Raise JSONDecodeError
                  | Some uni =>
                      match s3 with
                      | b :: u :: g1 :: g2 :: g3 :: g4 :: s4 =>
                          if is_high_surrogate uni && (b =? 92) && (u =? 117) then
                            match decode_uXXXX g1 g2 g3 g4 with
                            | None => Raise JSONDecodeError
                            | Some uni2 =>
                                if is_low_surrogate uni2
                                then '(str, r) <- scanstring s4 ;;
                                     Ret (join_surrogates uni uni2 :: str, r)
                                else '(str, r) <- scanstring s3 ;;
                                     Ret (uni :: str, r)
                            end
                          else '(str, r) <- scanstring s3 ;; Ret (uni :: str, r)
                      | _ => '(str, r) <- scanstring s3 ;; Ret (uni :: str, r)
                      end
                  end
              | _ => Raise JSONDecodeError
              end
            else
              match unescape esc with
              | None => Raise JSONDecodeError
              | Some char => '(str, r) <- scanstring s2 ;; Ret (char :: str, r)
              end
        end
      else if c <? 32 then Raise JSONDecodeError
      else '(str, r) <- scanstring s1 ;; Ret (c :: str, r)
  end.

(** NUMBER_RE: an optional minus sign, then 0 or a digit 1-9 followed by
    digits; an optional fraction (a dot and at least one digit); an optional
    exponent (e or E, an optional sign, at least one digit). *)
Definition is_digit (c : N) : bool := (48 <=? c) && (c <=? 57).

Fixpoint span_digits (s : pystr) : pystr * pystr :=
  match s with
  | [] => ([], [])
  | c :: s' =>
      if is_digit c
      then let (ds, r) := span_digits s' in (c :: ds, r)
      else ([], s)
  end.

Definition digit_cons (c : N) (d : Decimal.uint) : Decimal.uint :=
  if c =? 48 then Decimal.D0 d
  else if c =? 49 then Decimal.D1 d
  else if c =? 50 then Decimal.D2 d
  else if c =? 51 then Decimal.D3 d
  else if c =? 52 then Decimal.D4 d
  else if c =? 53 then Decimal.D5 d
  else if c =? 54 then Decimal.D6 d
  else if c =? 55 then Decimal.D7 d
  else if c =? 56 then Decimal.D8 d
  else Decimal.D9 d.

Fixpoint uint_of_chars (ds : pystr) : Decimal.uint :=
  match ds with
  | [] => Decimal.Nil
  | c :: ds' => digit_cons c (uint_of_chars ds')
  end.

Definition match_integer (s : pystr) : option (pystr * pystr) :=
  match s with
  | [] => None
  | c :: s' =>
      if c =? 48 then Some ([c], s')
      else if is_digit c
      then let (ds, r) := span_digits s' in Some (c :: ds, r)
      else None
  end.

Definition match_frac (s : pystr) : option pystr :=
  match s with
  | [] => None
  | c :: s' =>
      if c =? 46 then
        match span_digits s' with
        | ([], _) => None
        | (_ :: _, r) => Some r
        end
      else None
  end.

Definition match_exp (s : pystr) : option pystr :=
  match s with
  | [] => None
  | c :: s' =>
      if (c =? 101) || (c =? 69) then
        let s'' := match s' with
                   | sg :: t => if (sg =? 43) || (sg =? 45) then t else s'
                   | [] => s'
                   end in
        match span_digits s'' with
        | ([], _) => None
        | (_ :: _, r) => Some r
        end
      else None
  end.

Inductive number : Type := IntLit (z : Z) | FloatLit.

Definition match_number (s : pystr) : option (number * pystr) :=
  let '(neg, s0) :=
    match s with
    | c :: s' => if c =? 45 then (true, s') else (false, s)
    | [] => (false, s)
    end in
  match match_integer s0 with
  | None => None
  | Some (ds, r) =>
      let '(frac, r1) :=
        match match_frac r with Some r' => (true, r') | None => (false, r) end in
      let '(exp, r2) :=
        match match_exp r1 with Some r' => (true, r') | None => (false, r1) end in
      if frac || exp then Some (FloatLit, r2)
      else
        let d := uint_of_chars ds in
        Some (IntLit (Z.of_int (if neg then Decimal.Neg d else Decimal.Pos d)), r2)
  end.

Section Containers.
(** [JSONArray] and [JSONObject] take the scanner as an argument, as in
    json/decoder.py.  Their [while True] loops carry a bound that the
    length of the remaining text always covers. *)
Variable scan_once : pystr -> res (pyval * pystr).

Fixpoint array_loop (n : nat) (s : pystr) (values : list pyval)
  : res (pyval * pystr) :=
  match n with
  | O => Unmodelled OutOfFuel
  | S n' =>
      '(value, s1) <- scan_once s ;;
      let values := values ++ [value] in
      match skip_ws s1 with
      | [] => Raise JSONDecodeError
      | nextchar :: s2 =>
          if nextchar =? 93 then Ret (PyList values, s2)
          else if nextchar =? 44 then array_loop n' (skip_ws s2) values
          else Raise JSONDecodeError
      end
  end.

Definition JSONArray (s : pystr) : res (pyval * pystr) :=
  let s := skip_ws s in
  match s with
  | nextchar :: s' =>
      if nextchar =? 93 then Ret (PyList [], s')
      else array_loop (S (List.length s)) s []
  | [] => array_loop (S (List.length s)) s []
  end.

Fixpoint object_loop (n : nat) (s : pystr) (pairs : list (pystr * pyval))
  : res (pyval * pystr) :=
  match n with
  | O => Unmodelled OutOfFuel
  | S n' =>
      '(key, s1) <- scanstring s ;;
      match skip_ws s1 with
      | [] => Raise JSONDecodeError
      | colon :: s2 =>
          if colon =? 58 then
            '(value, s3) <- scan_once (skip_ws s2) ;;
            let pairs := pairs ++ [(key, value)] in
            match skip_ws s3 with
            | [] => Raise JSONDecodeError
            | nextchar :: s4 =>
                if nextchar =? 125 then Ret (PyDict (dict_of_pairs pairs), s4)
                else if nextchar =? 44 then
                  match skip_ws s4 with
                  | [] => Raise JSONDecodeError
                  | q :: s5 =>
                      if q =? 34 then object_loop n' s5 pairs
                      else Raise JSONDecodeError
                  end
                else Raise JSONDecodeError
            end
          else Raise JSONDecodeError
      end
  end.

Definition JSONObject (s : pystr) : res (pyval * pystr) :=
  let s := skip_ws s in
  match s with
  | nextchar :: s' =>
      if nextchar =? 125 then Ret (PyDict [], s')
      else if nextchar =? 34 then object_loop (S (List.length s)) s' []
      else Raise JSONDecodeError
  | [] => Raise JSONDecodeError
  end.
End Containers.

Fixpoint scan_once (fuel : nat) (s : pystr) : res (pyval * pystr) :=
  match fuel with
  | O => Unmodelled OutOfFuel
  | S fuel' =>
      match s with
      | [] => Raise JSONDecodeError
      | nextchar :: s' =>
          if nextchar =? 34 then
            '(str, r) <- scanstring s' ;; Ret (PyStr str, r)
          else if nextchar =? 123 then JSONObject (scan_once fuel') s'
          else if nextchar =? 91 then JSONArray (scan_once fuel') s'
          else if startswith (py "null") s then Ret (PyNone, skipn 4 s)
          else if startswith (py "true") s then Ret (PyBool true, skipn 4 s)
          else if startswith (py "false") s then Ret (PyBool false, skipn 5 s)
          else
            match match_number s with
            | Some (IntLit z, r) => Ret (PyInt z, r)
            | Some (FloatLit, _) => Unmodelled FloatValue
            | None =>
                if startswith (py "NaN") s || startswith (py "Infinity") s
                   || startswith (py "-Infinity") s
                then Unmodelled FloatValue
                else Raise JSONDecodeError
            end
      end
  end.

(** [JSONDecoder.decode] *)
Definition JSONDecoder_decode (s : pystr) : res pyval :=
  '(obj, r) <- scan_once (S (List.length s)) (skip_ws s) ;;
  match skip_ws r with
  | [] => Ret obj
  | _ :: _ => Raise JSONDecodeError
  end.

Definition loads (s : pystr) : res pyval :=
  if startswith [0xFEFF] s then Raise JSONDecodeError
  else JSONDecoder_decode s.

(** ** The two ends of the framing, as [send_request] writes them *)

(** Line 40: [request_json = json.dumps(request) + "\n"]. *)
Definition request_json (request : pyval) : pystr := dumps request ++ [NEWLINE].

(** Line 44, the argument of [send]: [request_json.encode()]. *)
Definition to_wire (request : pyval) : res (list byte) :=
  encode (request_json request).

(** Lines 47-48: [json.loads(received.decode().strip())]. *)
Definition from_wire (received : list byte) : res pyval :=
  response_data <- decode received ;;
  loads (strip response_data).

(** ** A blocking TCP socket and the environment that answers it *)

Inductive sock_state : Type := Unconnected | Connected | Closed.

Inductive connect_answer : Type := ConnectOk | ConnectFails (errno : Z).
Inductive send_answer : Type := SendAccepts (n : nat) | SendFails (errno : Z).
Inductive recv_answer : Type := RecvReturns (data : list byte) | RecvFails (errno : Z).

(** What happened on the network, oldest first.  [EvSend data a]: the client
    handed [data] to [send]; with [a = SendAccepts n] the kernel took the
    first [n] bytes. *)
Inductive net_event : Type :=
| EvConnect (host : pystr) (port : Z) (a : connect_answer)
| EvSend (data : list byte) (a : send_answer)
| EvRecv (bufsize : nat) (a : recv_answer)
| EvClose.

Record environment : Type := {
  on_connect : list net_event -> pystr -> Z -> connect_answer;
  on_send : list net_event -> list byte -> send_answer;
  on_recv : list net_event -> nat -> recv_answer
}.

(** A printed line: the fixed text of the print site, with [{}] where a
    value is interpolated, and the values. *)
Inductive line : Type :=
| Say (text : string) (args : list pyval)
| SayError (e : exn)
| Traceback (e : exn).

(** ** The client object and the state of a run *)

Record CouncilMcpClient : Type := {
  host : pystr;
  port : Z;
  request_id : Z;
  sock : option sock_state      (* [None]: the attribute is not set yet *)
}.

Record state : Type := {
  self : CouncilMcpClient;
  stdout : list line;
  stderr : list line;
  net : list net_event
}.

Definition M (A : Type) : Type := state -> res A * state.

Definition ret {A} (a : A) : M A := fun st => (Ret a, st).

Definition bind {A B} (m : M A) (k : A -> M B) : M B :=
  fun st =>
    match m st with
    | (Ret a, st') => k a st'
    | (Raise e, st') => (Raise e, st')
    | (Unmodelled g, st') => (Unmodelled g, st')
    end.

Definition raise {A} (e : exn) : M A := fun st => (Raise e, st).

Definition lift {A} (r : res A) : M A := fun st => (r, st).

Declare Scope prog_scope.
Delimit Scope prog_scope with prog.
Notation "x <- m ;; k" := (bind m (fun x => k))
  (at level 61, m at next level, right associativity) : prog_scope.
Notation "m ;; k" := (bind m (fun _ => k))
  (at level 61, right associativity) : prog_scope.
Local Open Scope prog_scope.

Definition print (l : line) : M unit :=
  fun st => (Ret tt, {| self := self st; stdout := stdout st ++ [l];
                        stderr := stderr st; net := net st |}).

Definition print_exc (e : exn) : M unit :=
  fun st => (Ret tt, {| self := self st; stdout := stdout st;
                        stderr := stderr st ++ [Traceback e]; net := net st |}).

Definition get_self : M CouncilMcpClient := fun st => (Ret (self st), st).

Definition set_self (c : CouncilMcpClient) : M unit :=
  fun st => (Ret tt, {| self := c; stdout := stdout st;
                        stderr := stderr st; net := net st |}).

Definition emit (ev : net_event) : M unit :=
  fun st => (Ret tt, {| self := self st; stdout := stdout st;
                        stderr := stderr st; net := net st ++ [ev] |}).

Definition set_sock (s : sock_state) : M unit :=
  c <- get_self ;;
  set_self {| host := host c; port := port c; request_id := request_id c;
              sock := Some s |}.

(** [self.sock]: AttributeError before [connect] has set it. *)
Definition self_sock : M sock_state :=
  c <- get_self ;;
  match sock c with
  | None => raise AttributeError
  | Some s => ret s
  end.

(** [except Exception]: every exception of the model but SystemExit. *)
Definition is_Exception (e : exn) : bool :=
  match e with
  | SystemExit _ => false
  | _ => true
  end.

(** [except ConnectionRefusedError]: an OSError whose errno is ECONNREFUSED. *)
Definition is_ConnectionRefusedError (e : exn) : bool :=
  match e with
  | OSError errno => Z.eqb errno ECONNREFUSED
  | _ => false
  end.

Definition try_except {A} (body : M A) (catches : exn -> bool)
           (handler : exn -> M A) : M A :=
  fun st =>
    match body st with
    | (Raise e, st') => if catches e then handler e st' else (Raise e, st')
    | other => other
    end.

Definition try_finally {A} (body : M A) (finalizer : M unit) : M A :=
  fun st =>
    match body st with
    | (Unmodelled g, st') => (Unmodelled g, st')
    | (r, st') =>
        match finalizer st' with
        | (Ret _, st'') => (r, st'')
        | (Raise e, st'') => (Raise e, st'')
        | (Unmodelled g, st'') => (Unmodelled g, st'')
        end
    end.

Section Client.
Variable E : environment.

(** [sock.connect((host, port))] *)
Definition sock_connect (s : sock_state) (h : pystr) (p : Z) : M unit :=
  match s with
  | Closed => raise (OSError EBADF)
  | Connected => raise (OSError 106%Z)             (* EISCONN *)
  | Unconnected =>
      fun st =>
        let a := on_connect E (net st) h p in
        match a with
        | ConnectOk => (emit (EvConnect h p a) ;; set_sock Connected) st
        | ConnectFails errno =>
            (emit (EvConnect h p a) ;; raise (OSError errno)) st
        end
  end.

(** [sock.send(data)]: one [send], which may take only part of [data]. *)
Definition sock_send (s : sock_state) (data : list byte) : M nat :=
  match s with
  | Closed => raise (OSError EBADF)
  | Unconnected => raise (OSError EPIPE)
  | Connected =>
      fun st =>
        match on_send E (net st) data with
        | SendAccepts n =>
            let sent := Nat.min n (List.length data) in
            (emit (EvSend data (SendAccepts sent)) ;; ret sent) st
        | SendFails errno =>
            (emit (EvSend data (SendFails errno)) ;; raise (OSError errno)) st
        end
  end.

(** [sock.recv(bufsize)]: at most [bufsize] bytes of what has arrived. *)
Definition sock_recv (s : sock_state) (bufsize : nat) : M (list byte) :=
  match s with
  | Closed => raise (OSError EBADF)
  | Unconnected => raise (OSError ENOTCONN)
  | Connected =>
      fun st =>
        match on_recv E (net st) bufsize with
        | RecvReturns data =>
            let got := firstn bufsize data in
            (emit (EvRecv bufsize (RecvReturns got)) ;; ret got) st
        | RecvFails errno =>
            (emit (EvRecv bufsize (RecvFails errno)) ;; raise (OSError errno)) st
        end
  end.

(** [sock.close()] *)
Definition sock_close (s : sock_state) : M unit :=
  match s with
  | Closed => ret tt
  | Unconnected => set_sock Closed
  | Connected => emit EvClose ;; set_sock Closed
  end.

(** *** class CouncilMcpClient *)

Definition __init__ (host : pystr) (port : Z) : CouncilMcpClient :=
  {| host := host; port := port; request_id := 0%Z; sock := None |}.

Definition sys_exit {A} (code : Z) : M A := raise (SystemExit code).

Definition connect : M unit :=
  set_sock Unconnected ;;
  try_except
    (c <- get_self ;;
     s <- self_sock ;;
     sock_connect s (host c) (port c) ;;
     print (Say "Connected to {}:{}" [PyStr (host c); PyInt (port c)]))
    is_ConnectionRefusedError
    (fun _ =>
       print (Say "Connection refused. Is the MCP server running?" []) ;;
       print (Say "   Start the Council app and click 'Start MCP Server'" []) ;;
       sys_exit 1%Z).

(** Lines 32-38: the request dict. *)
Definition build_request (id : Z) (method : pystr) (params : pyval)
  : list (pystr * pyval) :=
  let request := [(py "jsonrpc", PyStr (py "2.0"));
                  (py "id", PyInt id);
                  (py "method", PyStr method)] in
  if truthy params then dict_set request (py "params") params else request.

Definition send_request (method : pystr) (params : pyval) : M pyval :=
  c <- get_self ;;
  set_self {| host := host c; port := port c;
              request_id := (request_id c + 1)%Z; sock := sock c |} ;;
  c <- get_self ;;
  let request := PyDict (build_request (request_id c) method params) in
  print (Say "Sending: {}" [PyStr method]) ;;
  print (Say "   {}" [PyStr (strip (request_json request))]) ;;
  s <- self_sock ;;
  data <- lift (to_wire request) ;;
  sock_send s data ;;
  s <- self_sock ;;
  received <- sock_recv s 4096 ;;
  response <- lift (from_wire received) ;;
  print (Say "Response:" []) ;;
  print (Say "   {}" [response]) ;;
  ret response.

Definition list_tools : M pyval :=
  send_request (py "tools/list") PyNone.

Definition ask_question (question : pystr) (wait_for_consensus : bool) : M pyval :=
  send_request (py "council/ask")
    (PyDict [(py "question", PyStr question);
             (py "wait_for_consensus", PyBool wait_for_consensus)]).

Definition get_session (session_id : pyval) : M pyval :=
  send_request (py "council/get_session")
    (PyDict [(py "session_id", session_id)]).

Definition list_sessions : M pyval :=
  send_request (py "council/list_sessions") PyNone.

Definition close : M unit :=
  s <- self_sock ;;
  sock_close s ;;
  print (Say "Connection closed" []).
End Client.

(** ** The operations of the demo on decoded replies *)

Fixpoint is_substring (p s : pystr) : bool :=
  startswith p s ||
  match s with
  | [] => false
  | _ :: s' => is_substring p s'
  end.

(** [key in o] for a str [key]. *)
Definition contains (key : pystr) (o : pyval) : res bool :=
  match o with
  | PyDict d => Ret (match dict_get d key with Some _ => true | None => false end)
  | PyList l =>
      Ret (existsb (fun x => match x with PyStr s => pystr_eqb s key | _ => false end) l)
  | PyStr s => Ret (is_substring key s)
  | _ => Raise TypeError
  end.

(** [o[key]] for a str [key]. *)
Definition getitem (o : pyval) (key : pystr) : res pyval :=
  match o with
  | PyDict d =>
      match dict_get d key with
      | Some v => Ret v
      | None => Raise KeyError
      end
  | _ => Raise TypeError
  end.

(** [iter(o)], run to the end. *)
Definition iter (o : pyval) : res (list pyval) :=
  match o with
  | PyList l => Ret l
  | PyDict d => Ret (map (fun kv => PyStr (fst kv)) d)
  | PyStr s => Ret (map (fun c => PyStr [c]) s)
  | _ => Raise TypeError
  end.

Definition len (o : pyval) : res Z :=
  match o with
  | PyList l => Ret (Z.of_nat (List.length l))
  | PyDict d => Ret (Z.of_nat (List.length d))
  | PyStr s => Ret (Z.of_nat (List.length s))
  | _ => Raise TypeError
  end.

(** [o[:60]] *)
Definition slice60 (o : pyval) : res pyval :=
  match o with
  | PyStr s => Ret (PyStr (firstn 60 s))
  | PyList l => Ret (PyList (firstn 60 l))
  | _ => Raise TypeError
  end.

(** [for x in xs: body(x)] over an already computed sequence. *)
Fixpoint for_each {A} (xs : list A) (body : A -> M unit) : M unit :=
  match xs with
  | [] => ret tt
  | x :: xs' => body x ;; for_each xs' body
  end.

Definition rule : line := Say "==================================================" [].

Section Main.
Variable E : environment.

(** [a in r and b in r[a]] *)
Definition has_path (r : pyval) (a b : pystr) : M bool :=
  has_a <- lift (contains a r) ;;
  if has_a : bool then
    inner <- lift (getitem r a) ;;
    lift (contains b inner)
  else ret false.

Definition step1 : M unit :=
  print rule ;; print (Say "1  LIST AVAILABLE TOOLS" []) ;; print rule ;;
  tools_response <- list_tools E ;;
  ok <- has_path tools_response (py "result") (py "tools") ;;
  if ok : bool then
    print (Say "Available tools:" []) ;;
    result <- lift (getitem tools_response (py "result")) ;;
    tools <- lift (getitem result (py "tools")) ;;
    tools <- lift (iter tools) ;;
    for_each tools (fun tool =>
      name <- lift (getitem tool (py "name")) ;;
      description <- lift (getitem tool (py "description")) ;;
      print (Say "   {}: {}" [name; description]))
  else ret tt.

Definition question : pystr :=
  py "What is the best programming language for systems programming?".

Definition step2 : M pyval :=
  print rule ;; print (Say "2  ASK A QUESTION" []) ;; print rule ;;
  ask_response <- ask_question E question false ;;
  ok <- has_path ask_response (py "result") (py "session_id") ;;
  if ok : bool then
    result <- lift (getitem ask_response (py "result")) ;;
    session_id <- lift (getitem result (py "session_id")) ;;
    print (Say "Session created: {}" [session_id]) ;;
    result <- lift (getitem ask_response (py "result")) ;;
    status <- lift (getitem result (py "status")) ;;
    print (Say "   Status: {}" [status]) ;;
    ret session_id
  else ret PyNone.

Definition step3 (session_id : pyval) : M unit :=
  if truthy session_id then
    print rule ;; print (Say "3  GET SESSION DETAILS" []) ;; print rule ;;
    session_response <- get_session E session_id ;;
    has_result <- lift (contains (py "result") session_response) ;;
    if has_result : bool then
      session <- lift (getitem session_response (py "result")) ;;
      id <- lift (getitem session (py "id")) ;;
      print (Say "Session: {}" [id]) ;;
      q <- lift (getitem session (py "question")) ;;
      print (Say "   Question: {}" [q]) ;;
      status <- lift (getitem session (py "status")) ;;
      print (Say "   Status: {}" [status]) ;;
      responses <- lift (getitem session (py "responses")) ;;
      n <- lift (len responses) ;;
      print (Say "   Responses: {}" [PyInt n]) ;;
      consensus <- lift (getitem session (py "consensus")) ;;
      print (Say "   Consensus: {}" [consensus])
    else ret tt
  else ret tt.

Definition step4 : M unit :=
  print rule ;; print (Say "4  LIST ALL SESSIONS" []) ;; print rule ;;
  list_response <- list_sessions E ;;
  has_result <- lift (contains (py "result") list_response) ;;
  if has_result : bool then
    sessions <- lift (getitem list_response (py "result")) ;;
    n <- lift (len sessions) ;;
    print (Say "Total sessions: {}" [PyInt n]) ;;
    items <- lift (iter sessions) ;;
    for_each (combine (map Z.of_nat (seq 1 (List.length items))) items)
      (fun i_session =>
         let session := snd i_session in
         print (Say "   Session {}:" [PyInt (fst i_session)]) ;;
         id <- lift (getitem session (py "id")) ;;
         print (Say "   ID: {}" [id]) ;;
         q <- lift (getitem session (py "question")) ;;
         q60 <- lift (slice60 q) ;;
         print (Say "   Question: {}..." [q60]) ;;
         status <- lift (getitem session (py "status")) ;;
         print (Say "   Status: {}" [status]) ;;
         responses <- lift (getitem session (py "responses")) ;;
         k <- lift (len responses) ;;
         print (Say "   Responses: {}" [PyInt k]))
  else ret tt.

Definition demo : M unit :=
  step1 ;;
  session_id <- step2 ;;
  step3 session_id ;;
  step4 ;;
  print rule ;; print (Say "Demo completed successfully!" []) ;; print rule.

Definition main : M unit :=
  print (Say "Council Of Dicks - MCP Client Example" []) ;;
  print rule ;;
  set_self (__init__ (py "localhost") 9001%Z) ;;
  connect E ;;
  try_finally
    (try_except demo is_Exception
       (fun e => print (SayError e) ;; print_exc e))
    close.

(** The script run as a program: [main()] under the interpreter. *)
Inductive exit : Type :=
| Exit (status : Z)
| NoVerdict (g : gap).

Definition boot : state :=
  {| self := __init__ [] 0%Z; stdout := []; stderr := []; net := [] |}.

Definition run_script : exit * state :=
  match main boot with
  | (Ret _, st) => (Exit 0%Z, st)
  | (Raise (SystemExit code), st) => (Exit code, st)
  | (Raise e, st) =>
      (Exit 1%Z, {| self := self st; stdout := stdout st;
                    stderr := stderr st ++ [Traceback e]; net := net st |})
  | (Unmodelled g, st) => (NoVerdict g, st)
  end.
End Main.

(** ** Vocabulary of the statements *)

(** The public operations of the client. *)
Inductive operation : Type :=
| Connect
| Send_request (method : pystr) (params : pyval)
| List_tools
| Ask_question (question : pystr) (wait_for_consensus : bool)
| Get_session (session_id : pyval)
| List_sessions
| Close.

(** The method name and the params that a call hands to [send_request]. *)
Definition call_of (op : operation) : option (pystr * pyval) :=
  match op with
  | Send_request method params => Some (method, params)
  | List_tools => Some (py "tools/list", PyNone)
  | Ask_question q w =>
      Some (py "council/ask",
            PyDict [(py "question", PyStr q); (py "wait_for_consensus", PyBool w)])
  | Get_session sid =>
      Some (py "council/get_session", PyDict [(py "session_id", sid)])
  | List_sessions => Some (py "council/list_sessions", PyNone)
  | Connect | Close => None
  end.

Definition perform (E : environment) (op : operation) : M pyval :=
  match op with
  | Connect => connect E ;; ret PyNone
  | Send_request method params => send_request E method params
  | List_tools => list_tools E
  | Ask_question q w => ask_question E q w
  | Get_session sid => get_session E sid
  | List_sessions => list_sessions E
  | Close => close ;; ret PyNone
  end.

(** A caller that issues operations one after the other and keeps every
    outcome. *)
Fixpoint perform_all (E : environment) (ops : list operation) (st : state)
  : list (res pyval) * state :=
  match ops with
  | [] => ([], st)
  | op :: ops' =>
      let (r, st1) := perform E op st in
      let (rs, st2) := perform_all E ops' st1 in
      (r :: rs, st2)
  end.

Definition returned {A} (r : res A) : bool :=
  match r with
  | Ret _ => true
  | _ => false
  end.

(** The byte strings handed to [send], oldest first. *)
Fixpoint outgoing (t : list net_event) : list (list byte) :=
  match t with
  | [] => []
  | EvSend data _ :: t' => data :: outgoing t'
  | _ :: t' => outgoing t'
  end.

(** The bytes the kernel took from the [send] calls, in order. *)
Fixpoint on_the_wire (t : list net_event) : list byte :=
  match t with
  | [] => []
  | EvSend data (SendAccepts n) :: t' => firstn n data ++ on_the_wire t'
  | _ :: t' => on_the_wire t'
  end.

Definition ascii_bytes (s : pystr) : list byte := map byte_of_N s.

(** The line of a request with the given id, as bytes. *)
Definition request_line (id : Z) (call : pystr * pyval) : list byte :=
  ascii_bytes (request_json (PyDict (build_request id (fst call) (snd call)))).

(** A printable ASCII character: [' '..'~']. *)
Definition printable (c : N) : bool := (32 <=? c) && (c <=? 126).

Definition all_printable (s : pystr) : Prop := Forall (fun c => printable c = true) s.

(** A [str] as Python builds it from text: code points only, and no high
    surrogate directly followed by a low one (such a pair is one character). *)
Fixpoint no_surrogate_pair (s : pystr) : bool :=
  match s with
  | [] => true
  | a :: s' =>
      match s' with
      | [] => true
      | b :: _ => negb (is_high_surrogate a && is_low_surrogate b)
      end && no_surrogate_pair s'
  end.

Definition wf_str (s : pystr) : bool :=
  forallb is_code_point s && no_surrogate_pair s.

Fixpoint distinct (ks : list pystr) : bool :=
  match ks with
  | [] => true
  | k :: ks' => negb (existsb (pystr_eqb k) ks') && distinct ks'
  end.

(** A value as Python holds it: well-formed strings, dict keys distinct. *)
Fixpoint wf_val (v : pyval) : bool :=
  match v with
  | PyNone | PyBool _ | PyInt _ => true
  | PyStr s => wf_str s
  | PyList l => forallb wf_val l
  | PyDict d =>
      forallb (fun kv => wf_str (fst kv) && wf_val (snd kv)) d
      && distinct (map fst d)
  end.

(** Nesting depth of a value. *)
Fixpoint depth (v : pyval) : nat :=
  match v with
  | PyList l => S (fold_right (fun x m => Nat.max (depth x) m) O l)
  | PyDict d => S (fold_right (fun kv m => Nat.max (depth (snd kv)) m) O d)
  | _ => O
  end.

(** What may follow a number in a JSON text without changing its reading. *)
Definition ends_number (rest : pystr) : bool :=
  match rest with
  | [] => true
  | c :: _ => negb (is_digit c || (c =? 46) || (c =? 101) || (c =? 69))
  end.

(** The requests that a sequence of operations builds when the counter
    stands at [k]: one per call, numbered from [k + 1]. *)
Fixpoint requests_from (k : Z) (ops : list operation) : list (list (pystr * pyval)) :=
  match ops with
  | [] => []
  | op :: ops' =>
      match call_of op with
      | Some (method, params) =>
          build_request (k + 1) method params :: requests_from (k + 1) ops'
      | None => requests_from k ops'
      end
  end.

Definition count_calls (ops : list operation) : nat :=
  List.length (filter (fun op => match call_of op with Some _ => true | None => false end) ops).

(** Whether a text starts with the escape of a low surrogate (or with a
    malformed escape), which [scanstring] would read together with a high
    surrogate before it. *)
Definition pair_ahead (s : pystr) : bool :=
  match s with
  | b :: u :: g1 :: g2 :: g3 :: g4 :: _ =>
      (b =? 92) && (u =? 117) &&
      match decode_uXXXX g1 g2 g3 g4 with
      | Some uni2 => is_low_surrogate uni2
      | None => true
      end
  | _ => false
  end.

(** The characters a JSON value written by [dumps] can start with. *)
Definition value_start (c : N) : bool :=
  is_digit c || (c =? 45) || (c =? 34) || (c =? 91) || (c =? 123)
  || (c =? 110) || (c =? 116) || (c =? 102).

(** The characters it can end with. *)
Definition value_end (c : N) : bool :=
  is_digit c || (c =? 34) || (c =? 93) || (c =? 125)
  || (c =? 108) || (c =? 101).

(** A separator of [json.dumps] that the decoder accepts: the delimiter
    followed by JSON whitespace only. *)
Definition separator (delimiter : N) (sep : pystr) : Prop :=
  exists ws, sep = delimiter :: ws /\ forallb is_ws ws = true.

(** A scanner reads back the text of [x], whatever value delimiter follows. *)
Definition reads_back (isep ksep : pystr) (scan : pystr -> res (pyval * pystr))
           (x : pyval) : Prop :=
  forall rest, ends_number rest = true ->
               scan (dumps_with isep ksep x ++ rest) = Ret (x, rest).

(** The wire form of the protocol description: separators without spaces,
    [json.dumps(o, separators=(",", ":"))]. *)
Definition compact (o : pyval) : pystr := dumps_with [44] [58] o.

(** What a scanner may answer on a text of fewer than [n] + 1 characters:
    a value and a strictly shorter rest, a JSONDecodeError, or no answer
    because a float was met.  It never runs out of fuel. *)
Definition scans_within {A} (n : nat) (r : res (A * pystr)) : Prop :=
  match r with
  | Ret (_, rest) => (List.length rest < n)%nat
  | Raise e => e = JSONDecodeError
  | Unmodelled g => g = FloatValue
  end.

(** Environments used as concrete inputs. *)
Definition count_recv (t : list net_event) : nat :=
  List.length (filter (fun ev => match ev with EvRecv _ _ => true | _ => false end) t).

(** A peer that accepts the connection, takes every byte sent and answers
    the n-th read with [replies n]. *)
Definition stub (replies : nat -> pystr) : environment :=
  {| on_connect := fun _ _ _ => ConnectOk;
     on_send := fun _ data => SendAccepts (List.length data);
     on_recv := fun t _ => RecvReturns (ascii_bytes (replies (count_recv t))) |}.

(** The same peer behind a kernel that takes at most [k] bytes per [send]. *)
Definition short_send (k : nat) (replies : nat -> pystr) : environment :=
  {| on_connect := fun _ _ _ => ConnectOk;
     on_send := fun _ _ => SendAccepts k;
     on_recv := fun t _ => RecvReturns (ascii_bytes (replies (count_recv t))) |}.

(** The errnos that Python turns into a subclass of ConnectionError:
    EPIPE and ESHUTDOWN (BrokenPipeError), ECONNABORTED, ECONNREFUSED,
    ECONNRESET. *)
Definition connection_errno (errno : Z) : bool :=
  Z.eqb errno EPIPE || Z.eqb errno 108 || Z.eqb errno 103
  || Z.eqb errno ECONNREFUSED || Z.eqb errno ECONNRESET.

(** [isinstance(e, ConnectionError)] *)
Definition is_ConnectionError (e : exn) : bool :=
  match e with
  | OSError errno => connection_errno errno
  | _ => false
  end.

(** An endpoint at which [connect] fails with [errno]. *)
Definition unreachable (errno : Z) : environment :=
  {| on_connect := fun _ _ _ => ConnectFails errno;
     on_send := fun _ _ => SendFails EPIPE;
     on_recv := fun _ _ => RecvFails ENOTCONN |}.

(** The replies of a conforming server to the four requests of the demo. *)
Definition demo_replies (n : nat) : pystr :=
  jtext
    match n with
    | 0%nat => "{'jsonrpc':'2.0','id':1,'result':{'tools':[]}}"
    | 1%nat => "{'jsonrpc':'2.0','id':2,'result':{'session_id':'s1','status':'pending'}}"
    | 2%nat => "{'jsonrpc':'2.0','id':3,'result':{'id':'s1','question':'X','status':'pending','responses':[],'consensus':null}}"
    | _ => "{'jsonrpc':'2.0','id':4,'result':[]}"
    end ++ [NEWLINE].

Definition connected (st : state) : state :=
  {| self := {| host := host (self st); port := port (self st);
                request_id := request_id (self st); sock := Some Connected |};
     stdout := stdout st; stderr := stderr st; net := net st |}.

Definition fresh (h : pystr) (p : Z) : state :=
  {| self := __init__ h p; stdout := []; stderr := []; net := [] |}.

(** * Properties *)

(** ** Running monadic code by hand *)

Ltac run :=
  cbv [bind ret raise lift print print_exc emit get_self set_self set_sock
       self_sock sys_exit try_except try_finally
       sock_connect sock_send sock_recv sock_close];
  cbn [self stdout stderr net host port request_id sock fst snd].

Ltac split_on_scrutinee :=
  match goal with
  | |- context [match ?x with _ => _ end] =>
      lazymatch x with
      | context [match _ with _ => _ end] => fail
      | _ => destruct x eqn:?
      end
  end.

Ltac run_all := run; repeat (split_on_scrutinee; run).

(** ** Induction over values *)

Lemma pyval_ind (P : pyval -> Prop) :
  P PyNone ->
  (forall b, P (PyBool b)) ->
  (forall z, P (PyInt z)) ->
  (forall s, P (PyStr s)) ->
  (forall l, Forall P l -> P (PyList l)) ->
  (forall d, Forall (fun kv => P (snd kv)) d -> P (PyDict d)) ->
  forall v, P v.
Proof.
  intros HN HB HI HS HL HD.
  fix IH 1.
  intros [ | b | z | s | l | d ].
  - exact HN.
  - apply HB.
  - apply HI.
  - apply HS.
  - apply HL. induction l as [ | x l IHl ]; constructor; [ apply IH | exact IHl ].
  - apply HD. induction d as [ | [k x] d IHd ]; constructor; [ apply IH | exact IHd ].
Qed.

(** ** The text of [json.dumps] is printable ASCII *)

Lemma all_printable_app (a b : pystr) :
  all_printable a -> all_printable b -> all_printable (a ++ b).
Proof. intros Ha Hb. apply Forall_app. split; assumption. Qed.

Lemma all_printable_py_literal (s : pystr) :
  forallb printable s = true -> all_printable s.
Proof. intro H. apply Forall_forall. apply forallb_forall. exact H. Qed.

Lemma hex_digit_printable (n : N) : n <= 15 -> printable (hex_digit n) = true.
Proof.
  intro H. unfold hex_digit, printable.
  destruct (n <? 10) eqn:E.
  - apply N.ltb_lt in E. apply andb_true_intro. split; apply N.leb_le; lia.
  - apply N.ltb_ge in E. apply andb_true_intro. split; apply N.leb_le; lia.
Qed.

Lemma u_escape_printable (n : N) : all_printable (u_escape n).
Proof.
  unfold u_escape.
  repeat constructor; apply hex_digit_printable; apply (N.land_le_r _ 0xF).
Qed.

Lemma escape_char_printable (c : N) : all_printable (escape_char c).
Proof.
  unfold escape_char.
  repeat match goal with
         | |- context [if ?b then _ else _] => destruct b eqn:?
         end;
    try (repeat constructor; fail).
  - repeat constructor. assumption.
  - apply u_escape_printable.
  - apply all_printable_app; apply u_escape_printable.
Qed.

Lemma encode_basestring_ascii_printable (s : pystr) :
  all_printable (encode_basestring_ascii s).
Proof.
  unfold encode_basestring_ascii.
  constructor; [ reflexivity | ].
  apply all_printable_app; [ | repeat constructor ].
  induction s as [ | c s IH ]; simpl.
  - constructor.
  - apply all_printable_app; [ apply escape_char_printable | exact IH ].
Qed.

Lemma uint_chars_digits (d : Decimal.uint) :
  Forall (fun c => is_digit c = true) (uint_chars d).
Proof. induction d; simpl; constructor; auto. Qed.

Lemma is_digit_printable (c : N) : is_digit c = true -> printable c = true.
Proof.
  unfold is_digit, printable. intro H.
  apply andb_prop in H. destruct H as [H1 H2].
  apply N.leb_le in H1. apply N.leb_le in H2.
  apply andb_true_intro. split; apply N.leb_le; lia.
Qed.

Lemma int_repr_printable (z : Z) : all_printable (int_repr z).
Proof.
  unfold int_repr.
  destruct (Z.to_int z) as [d | d].
  - eapply Forall_impl; [ | apply uint_chars_digits ]. apply is_digit_printable.
  - constructor; [ reflexivity | ].
    eapply Forall_impl; [ | apply uint_chars_digits ]. apply is_digit_printable.
Qed.

Lemma join_printable (sep : pystr) (parts : list pystr) :
  all_printable sep -> Forall all_printable parts -> all_printable (join sep parts).
Proof.
  intros Hsep Hparts.
  induction Hparts as [ | p ps Hp Hps IH ]; simpl.
  - constructor.
  - destruct ps as [ | q ps' ]; [ exact Hp | ].
    apply all_printable_app; [ exact Hp | ].
    apply all_printable_app; [ exact Hsep | exact IH ].
Qed.

Lemma dumps_with_PyList (isep ksep : pystr) (l : list pyval) :
  dumps_with isep ksep (PyList l) =
  py "[" ++ join isep (map (dumps_with isep ksep) l) ++ py "]".
Proof. reflexivity. Qed.

Lemma dumps_with_PyDict (isep ksep : pystr) (d : list (pystr * pyval)) :
  dumps_with isep ksep (PyDict d) =
  py "{" ++
  join isep
    (map (fun kv => encode_basestring_ascii (fst kv) ++ ksep
                    ++ dumps_with isep ksep (snd kv)) d)
  ++ py "}".
Proof. reflexivity. Qed.

Lemma dumps_PyDict (d : list (pystr * pyval)) :
  dumps (PyDict d) =
  py "{" ++
  join item_separator
    (map (fun kv => encode_basestring_ascii (fst kv) ++ key_separator ++ dumps (snd kv)) d)
  ++ py "}".
Proof. reflexivity. Qed.

Lemma dumps_with_printable (isep ksep : pystr) (v : pyval) :
  all_printable isep -> all_printable ksep ->
  all_printable (dumps_with isep ksep v).
Proof.
  intros Hisep Hksep.
  induction v as [ | b | z | s | l IH | d IH ] using pyval_ind.
  - repeat constructor.
  - destruct b; repeat constructor.
  - apply int_repr_printable.
  - apply encode_basestring_ascii_printable.
  - rewrite dumps_with_PyList.
    apply all_printable_app; [ repeat constructor | ].
    apply all_printable_app; [ | repeat constructor ].
    apply join_printable; [ exact Hisep | ].
    induction IH; simpl; constructor; assumption.
  - rewrite dumps_with_PyDict.
    apply all_printable_app; [ repeat constructor | ].
    apply all_printable_app; [ | repeat constructor ].
    apply join_printable; [ exact Hisep | ].
    induction IH as [ | [k x] d Hx Hd IHd ]; cbn [map fst snd]; constructor;
      [ | exact IHd ].
    apply all_printable_app; [ apply encode_basestring_ascii_printable | ].
    apply all_printable_app; [ exact Hksep | exact Hx ].
Qed.

Lemma dumps_printable (v : pyval) : all_printable (dumps v).
Proof. apply dumps_with_printable; repeat constructor. Qed.

(** ** UTF-8 on ASCII text *)

Lemma byte_of_N_to_N (n : N) : n <= 255 -> Byte.to_N (byte_of_N n) = n.
Proof.
  intro H. unfold byte_of_N.
  destruct (Byte.of_N n) as [b | ] eqn:E.
  - apply Byte.to_of_N. exact E.
  - apply Byte.of_N_None_iff in E. lia.
Qed.

Lemma printable_lt_128 (c : N) : printable c = true -> c < 128.
Proof.
  unfold printable. intro H. apply andb_prop in H. destruct H as [_ H].
  apply N.leb_le in H. lia.
Qed.

Lemma encode_ascii (s : pystr) :
  Forall (fun c => c < 128) s -> encode s = Ret (ascii_bytes s).
Proof.
  unfold ascii_bytes.
  induction 1 as [ | c s Hc Hs IH ]; cbn [map encode].
  - reflexivity.
  - unfold utf8_encode_char.
    apply N.ltb_lt in Hc. rewrite Hc, IH. reflexivity.
Qed.

Lemma decode_ascii (s : pystr) :
  Forall (fun c => c < 128) s -> decode (ascii_bytes s) = Ret s.
Proof.
  unfold ascii_bytes.
  induction 1 as [ | c s Hc Hs IH ]; cbn [map decode].
  - reflexivity.
  - rewrite byte_of_N_to_N by lia.
    apply N.ltb_lt in Hc. rewrite Hc, IH. reflexivity.
Qed.

Lemma request_json_ascii (o : pyval) : Forall (fun c => c < 128) (request_json o).
Proof.
  unfold request_json. apply Forall_app. split.
  - eapply Forall_impl; [ | apply dumps_printable ]. apply printable_lt_128.
  - repeat constructor.
Qed.

(** Line 44 never raises: the text to encode is ASCII. *)
Lemma to_wire_ascii (o : pyval) : to_wire o = Ret (ascii_bytes (request_json o)).
Proof. unfold to_wire. apply encode_ascii. apply request_json_ascii. Qed.

(** ** [send_request], step by step *)

(** The case analysis that [send_request] itself makes, in its order: the
    socket, the answer to [send], the answer to [recv], the decoded reply. *)
Ltac cases_of_send_request :=
  unfold send_request; run;
  match goal with
  | |- context [sock (self ?st)] =>
      case_eq (sock (self st));
      [ let s := fresh "s" in
        let Hs := fresh "Hsock" in
        intros s Hs; revert Hs; case s; intro Hs
      | intro ]
  end; run;
  rewrite ?to_wire_ascii; run;
  try match goal with
    | |- context [on_send ?E ?t ?d] => case_eq (on_send E t d); intros ? ?
    end; run;
  try match goal with
    | |- context [on_recv ?E ?t ?n] => case_eq (on_recv E t n); intros ? ?
    end; run;
  try match goal with
    | |- context [from_wire ?bs] => case_eq (from_wire bs); intros ? ?
    end; run.

(** What [send_request] does to the client object, whatever its outcome. *)
Lemma send_request_self (E : environment) (method : pystr) (params : pyval)
      (st : state) :
  self (snd (send_request E method params st)) =
  {| host := host (self st); port := port (self st);
     request_id := (request_id (self st) + 1)%Z; sock := sock (self st) |}.
Proof.
  cases_of_send_request; reflexivity.
Qed.


Lemma outgoing_app (t u : list net_event) :
  outgoing (t ++ u) = outgoing t ++ outgoing u.
Proof.
  induction t as [ | ev t IH ]; simpl; [ reflexivity | ].
  destruct ev; rewrite IH; reflexivity.
Qed.

Lemma perform_call (E : environment) (op : operation) (method : pystr)
      (params : pyval) :
  call_of op = Some (method, params) ->
  perform E op = send_request E method params.
Proof.
  destruct op; simpl; intro H; try discriminate;
    injection H as <- <-; reflexivity.
Qed.

(** A call that returns has handed exactly one byte string to [send]: the
    line of the request carrying the next id. *)
Lemma send_request_returns (E : environment) (method : pystr) (params : pyval)
      (st : state) (response : pyval) :
  fst (send_request E method params st) = Ret response ->
  outgoing (net (snd (send_request E method params st))) =
  outgoing (net st) ++
  [ascii_bytes (request_json
     (PyDict (build_request (request_id (self st) + 1) method params)))].
Proof.
  cases_of_send_request; cbn [fst]; intro Hret; try discriminate Hret.
  rewrite <- !List.app_assoc, outgoing_app. reflexivity.
Qed.

(** [connect] and [close] leave the counter, the host and the port alone,
    and hand nothing to [send]. *)
Lemma connect_frame (E : environment) (st : state) :
  let st' := snd (connect E st) in
  host (self st') = host (self st) /\ port (self st') = port (self st)
  /\ request_id (self st') = request_id (self st)
  /\ outgoing (net st') = outgoing (net st).
Proof.
  unfold connect. run_all; cbn [is_ConnectionRefusedError] in *;
    repeat split; try reflexivity;
    try (rewrite outgoing_app; simpl; apply List.app_nil_r);
    try discriminate.
Qed.

Lemma close_frame (st : state) :
  let st' := snd (close st) in
  host (self st') = host (self st) /\ port (self st') = port (self st)
  /\ request_id (self st') = request_id (self st)
  /\ outgoing (net st') = outgoing (net st).
Proof.
  unfold close. run_all; repeat split; try reflexivity;
    rewrite outgoing_app; simpl; apply List.app_nil_r.
Qed.

(** ** The request counter *)

Lemma pystr_eqb_eq (a b : pystr) : pystr_eqb a b = true <-> a = b.
Proof.
  revert b. induction a as [ | x a IH ]; intros [ | y b ]; simpl;
    try (split; [ discriminate | discriminate ]); try (split; reflexivity).
  rewrite andb_true_iff, N.eqb_eq, IH.
  split; [ intros [-> ->]; reflexivity | intro H; injection H; auto ].
Qed.

Lemma build_request_id (id : Z) (method : pystr) (params : pyval) :
  dict_get (build_request id method params) (py "id") = Some (PyInt id).
Proof. unfold build_request. destruct (truthy params); reflexivity. Qed.

Lemma build_request_jsonrpc (id : Z) (method : pystr) (params : pyval) :
  dict_get (build_request id method params) (py "jsonrpc") = Some (PyStr (py "2.0")).
Proof. unfold build_request. destruct (truthy params); reflexivity. Qed.

Lemma requests_from_ids (ops : list operation) (k : Z) :
  map (fun r => dict_get r (py "id")) (requests_from k ops) =
  map (fun i => Some (PyInt (k + Z.of_nat i))) (seq 1 (count_calls ops)).
Proof.
  revert k. induction ops as [ | op ops IH ]; intro k; [ reflexivity | ].
  unfold count_calls. cbn [requests_from filter].
  destruct (call_of op) as [ [method params] | ].
  - cbn [map List.length seq]. rewrite build_request_id, IH.
    replace (k + Z.of_nat 1)%Z with (k + 1)%Z by lia. f_equal.
    unfold count_calls. rewrite <- (seq_shift _ 1), map_map.
    apply map_ext. intro i. do 2 f_equal. lia.
  - apply IH.
Qed.

Lemma perform_all_returned (E : environment) (ops : list operation) :
  forall (st st' : state) (outs : list (res pyval)),
  perform_all E ops st = (outs, st') ->
  forallb returned outs = true ->
  outgoing (net st') =
    outgoing (net st) ++
    map (fun r => ascii_bytes (request_json (PyDict r)))
        (requests_from (request_id (self st)) ops)
  /\ request_id (self st') = (request_id (self st) + Z.of_nat (count_calls ops))%Z.
Proof.
  induction ops as [ | op ops IH ]; intros st st' outs Hrun Hret.
  - injection Hrun as <- <-. simpl. rewrite List.app_nil_r. split; [ reflexivity | ].
    unfold count_calls. simpl. lia.
  - cbn [perform_all] in Hrun.
    destruct (perform E op st) as [r st1] eqn:Hop.
    destruct (perform_all E ops st1) as [rs st2] eqn:Hrest.
    injection Hrun as <- <-.
    cbn [forallb] in Hret. apply andb_prop in Hret. destruct Hret as [Hr Hrs].
    destruct (IH _ _ _ Hrest Hrs) as [IHout IHid].
    unfold count_calls in *. cbn [requests_from filter].
    destruct (call_of op) as [ [method params] | ] eqn:Hcall.
    + rewrite (perform_call E op Hcall) in Hop.
      destruct r as [ response | | ]; try discriminate Hr.
      pose proof (send_request_returns E method params st) as Hsent.
      pose proof (send_request_self E method params st) as Hself.
      rewrite Hop in Hsent, Hself. cbn [fst snd] in Hsent, Hself.
      specialize (Hsent response eq_refl).
      rewrite IHout, IHid, Hsent, Hself. cbn [request_id map List.length].
      rewrite <- List.app_assoc. split; [ reflexivity | lia ].
    + assert (Hframe : request_id (self st1) = request_id (self st)
                       /\ outgoing (net st1) = outgoing (net st)).
      { destruct op; try discriminate Hcall; cbn [perform] in Hop.
        - pose proof (connect_frame E st) as Hc. cbv zeta in Hc.
          unfold bind in Hop. destruct (connect E st) as [ [ [] | e | g ] stc ];
            injection Hop as <- <-; cbn [snd] in Hc; tauto.
        - pose proof (close_frame st) as Hc. cbv zeta in Hc.
          unfold bind in Hop. destruct (close st) as [ [ [] | e | g ] stc ];
            injection Hop as <- <-; cbn [snd] in Hc; tauto. }
      destruct Hframe as [Hid Hout].
      rewrite IHout, IHid, Hid, Hout. split; reflexivity.
Qed.

(** C1. On one client whose counter stands at 0, a sequence of operations
    whose N calls to [send_request] (direct or through [list_tools],
    [ask_question], [get_session], [list_sessions]) all return hands to
    [send] the lines of N requests whose ids are 1, 2, ..., N in this order;
    the counter then stands at N. *)
Theorem request_ids_are_1_to_N (E : environment) (ops : list operation)
        (st st' : state) (outs : list (res pyval)) :
  request_id (self st) = 0%Z ->
  perform_all E ops st = (outs, st') ->
  forallb returned outs = true ->
  exists requests : list (list (pystr * pyval)),
    outgoing (net st') =
      outgoing (net st) ++ map (fun r => ascii_bytes (request_json (PyDict r))) requests
    /\ map (fun r => dict_get r (py "id")) requests =
       map (fun k => Some (PyInt (Z.of_nat k))) (seq 1 (count_calls ops))
    /\ request_id (self st') = Z.of_nat (count_calls ops).
Proof.
  intros H0 Hrun Hret.
  destruct (perform_all_returned E ops st Hrun Hret) as [Hout Hid].
  exists (requests_from 0 ops). rewrite H0 in Hout, Hid.
  split; [ exact Hout | split; [ | exact Hid ] ].
  rewrite requests_from_ids. apply map_ext. intro i. reflexivity.
Qed.

Lemma request_ids_are_1_to_N_witness :
  let E := stub demo_replies in
  let ops := [Connect; List_tools; Ask_question (py "X") false;
              Get_session (PyStr (py "s1")); List_sessions] in
  let st := fresh (py "localhost") 9001 in
  exists requests : list (list (pystr * pyval)),
    outgoing (net (snd (perform_all E ops st))) =
      outgoing (net st) ++ map (fun r => ascii_bytes (request_json (PyDict r))) requests
    /\ map (fun r => dict_get r (py "id")) requests =
       [Some (PyInt 1); Some (PyInt 2); Some (PyInt 3); Some (PyInt 4)]
    /\ request_id (self (snd (perform_all E ops st))) = 4%Z.
Proof.
  intros E ops st.
  apply (@request_ids_are_1_to_N E ops st (snd (perform_all E ops st))
           (fst (perform_all E ops st))).
  - reflexivity.
  - apply surjective_pairing.
  - vm_compute. reflexivity.
Defined.

(** C10. Frame of the operations: none of them changes [host] or [port];
    [connect] and [close] leave [request_id] alone; [send_request] and its
    four wrappers raise it by exactly 1, whatever the outcome of the call
    (the counter is raised before any I/O, so a failed write or read has
    consumed an id all the same). *)
Theorem operations_frame (E : environment) (op : operation) (st : state) :
  let st' := snd (perform E op st) in
  host (self st') = host (self st)
  /\ port (self st') = port (self st)
  /\ request_id (self st') =
     match call_of op with
     | Some _ => (request_id (self st) + 1)%Z
     | None => request_id (self st)
     end.
Proof.
  cbv zeta.
  destruct (call_of op) as [ [method params] | ] eqn:Hcall.
  - rewrite (perform_call E op Hcall), send_request_self. cbn. auto.
  - destruct op; try discriminate Hcall; cbn [perform]; unfold bind.
    + pose proof (connect_frame E st) as H. cbv zeta in H.
      destruct (connect E st) as [ [ [] | e | g ] stc ]; cbn [snd] in *; tauto.
    + pose proof (close_frame st) as H. cbv zeta in H.
      destruct (close st) as [ [ [] | e | g ] stc ]; cbn [snd] in *; tauto.
Qed.

(** C9. When [params] is falsy (None, an empty dict or list, ...), the
    request has no "params" member, and the whole call is the one made with
    no params at all: same bytes, same outcome. *)
Theorem falsy_params_are_omitted (E : environment) (method : pystr)
        (params : pyval) (st : state) :
  truthy params = false ->
  (forall id, dict_get (build_request id method params) (py "params") = None)
  /\ (forall id, request_line id (method, params) = request_line id (method, PyNone))
  /\ send_request E method params st = send_request E method PyNone st.
Proof.
  intro H.
  assert (Hb : forall id, build_request id method params = build_request id method PyNone).
  { intro id. unfold build_request. rewrite H. reflexivity. }
  split; [ | split ].
  - intro id. rewrite Hb. reflexivity.
  - intro id. unfold request_line. cbn [fst snd]. rewrite Hb. reflexivity.
  - unfold send_request. run. rewrite Hb. reflexivity.
Qed.

Lemma falsy_params_are_omitted_witness :
  let E := stub demo_replies in
  let st := connected (fresh (py "localhost") 9001) in
  (forall id, dict_get (build_request id (py "tools/list") (PyDict [])) (py "params") = None)
  /\ (forall id, request_line id (py "tools/list", PyDict []) =
                 request_line id (py "tools/list", PyNone))
  /\ send_request E (py "tools/list") (PyDict []) st =
     send_request E (py "tools/list") PyNone st.
Proof.
  intros E st.
  apply (@falsy_params_are_omitted E (py "tools/list") (PyDict []) st).
  reflexivity.
Defined.

(** C5. A call on a client that was never connected (no socket yet) or that
    was closed fails, with AttributeError in the first case and with
    OSError(EBADF) in the second, and nothing happens on the network. *)
Theorem call_needs_connection (E : environment) (method : pystr)
        (params : pyval) (st : state) :
  sock (self st) = None \/ sock (self st) = Some Closed ->
  fst (send_request E method params st) =
    Raise (match sock (self st) with
           | None => AttributeError
           | Some _ => OSError EBADF
           end)
  /\ net (snd (send_request E method params st)) = net st.
Proof.
  intros [H | H]; unfold send_request; run; rewrite H; run;
    [ | rewrite to_wire_ascii ]; split; reflexivity.
Qed.

Lemma call_needs_connection_witness :
  let E := stub demo_replies in
  (fst (list_tools E (fresh (py "localhost") 9001)) = Raise AttributeError
   /\ net (snd (list_tools E (fresh (py "localhost") 9001))) = [])
  /\
  (let st := snd (close (snd (connect E (fresh (py "localhost") 9001)))) in
   fst (list_tools E st) = Raise (OSError EBADF)
   /\ net (snd (list_tools E st)) = net st).
Proof.
  intro E. split.
  - apply (@call_needs_connection E (py "tools/list") PyNone (fresh (py "localhost") 9001)).
    left. reflexivity.
  - apply (@call_needs_connection E (py "tools/list") PyNone
             (snd (close (snd (connect E (fresh (py "localhost") 9001)))))).
    right. reflexivity.
Defined.

(** ** Failure to connect *)

(** C7, as the code has it.  When the endpoint refuses the connection or
    cannot be reached, [connect] does not return, on any client and for any
    host and port.  On a refusal it catches the ConnectionRefusedError,
    prints its two lines and raises SystemExit(1), which is no
    ConnectionError; on any other error the OSError leaves it as it is, a
    ConnectionError only for the errnos of that family (a host or a network
    that cannot be reached, or a timeout, are not among them).  Nothing is
    sent and the counter is left alone.  Run as a script, the program then
    ends with status 1 after a diagnostic (the two lines on stdout, or the
    traceback of the OSError on stderr), and no call was attempted: the
    counter is still 0 and nothing was sent. *)
Theorem connect_failure_ends_the_script (E : environment) (errno : Z) :
  let refused := Z.eqb errno ECONNREFUSED in
  let raised := if refused then SystemExit 1 else OSError errno in
  let diagnostic :=
    if refused
    then [Say "Connection refused. Is the MCP server running?" [];
          Say "   Start the Council app and click 'Start MCP Server'" []]
    else [] in
  (forall st : state,
      on_connect E (net st) (host (self st)) (port (self st)) = ConnectFails errno ->
      let out := connect E st in
      fst out = Raise raised
      /\ is_ConnectionError raised = negb refused && connection_errno errno
      /\ stdout (snd out) = stdout st ++ diagnostic
      /\ stderr (snd out) = stderr st
      /\ host (self (snd out)) = host (self st)
      /\ port (self (snd out)) = port (self st)
      /\ request_id (self (snd out)) = request_id (self st)
      /\ outgoing (net (snd out)) = outgoing (net st))
  /\ (on_connect E [] (py "localhost") 9001%Z = ConnectFails errno ->
      let st := snd (run_script E) in
      fst (run_script E) = Exit 1
      /\ stdout st =
         [Say "Council Of Dicks - MCP Client Example" []; rule] ++ diagnostic
      /\ stderr st = (if refused then [] else [Traceback (OSError errno)])
      /\ net st = [EvConnect (py "localhost") 9001 (ConnectFails errno)]
      /\ outgoing (net st) = []
      /\ request_id (self st) = 0%Z).
Proof.
  cbv zeta. split.
  - intros st H. unfold connect. run. rewrite H. run.
    cbn [is_ConnectionRefusedError].
    destruct (Z.eqb errno ECONNREFUSED) eqn:Hr; run;
      rewrite ?outgoing_app, ?List.app_nil_r; cbn [outgoing];
      rewrite <- ?List.app_assoc, ?List.app_nil_r;
      repeat split; reflexivity.
  - intro H.
    unfold run_script, main, connect, boot, __init__. run.
    rewrite H. run. cbn [is_ConnectionRefusedError].
    destruct (Z.eqb errno ECONNREFUSED) eqn:Hr.
    + run. repeat split; reflexivity.
    + run. destruct errno; repeat split; reflexivity.
Qed.

Lemma connect_failure_ends_the_script_witness :
  fst (connect (unreachable ECONNREFUSED) (fresh (py "council.example") 9001))
  = Raise (SystemExit 1)
  /\ fst (connect (unreachable EHOSTUNREACH) (fresh (py "council.example") 9001))
     = Raise (OSError EHOSTUNREACH)
  /\ fst (run_script (unreachable ECONNREFUSED)) = Exit 1
  /\ fst (run_script (unreachable EHOSTUNREACH)) = Exit 1
  /\ outgoing (net (snd (run_script (unreachable ECONNREFUSED)))) = []
  /\ stderr (snd (run_script (unreachable EHOSTUNREACH))) =
     [Traceback (OSError EHOSTUNREACH)].
Proof.
  pose proof (connect_failure_ends_the_script (unreachable ECONNREFUSED)
                ECONNREFUSED) as H1.
  pose proof (connect_failure_ends_the_script (unreachable EHOSTUNREACH)
                EHOSTUNREACH) as H2.
  cbv zeta in H1, H2.
  destruct H1 as (C1 & S1). destruct H2 as (C2 & S2).
  destruct (C1 (fresh (py "council.example") 9001) eq_refl) as (C1' & _).
  destruct (C2 (fresh (py "council.example") 9001) eq_refl) as (C2' & _).
  destruct (S1 eq_refl) as (S1' & _ & _ & _ & S1'' & _).
  destruct (S2 eq_refl) as (S2' & _ & S2'' & _).
  repeat split; assumption.
Defined.

(** C7 as stated fails on the exception: no ConnectionError leaves
    [connect] when the endpoint refuses (SystemExit does) or when the host
    cannot be reached (a plain OSError does). *)
Lemma connect_failure_is_no_ConnectionError :
  (fst (connect (unreachable ECONNREFUSED) (fresh (py "localhost") 9001))
   = Raise (SystemExit 1)
   /\ is_ConnectionError (SystemExit 1) = false)
  /\ (fst (connect (unreachable EHOSTUNREACH) (fresh (py "localhost") 9001))
      = Raise (OSError EHOSTUNREACH)
      /\ is_ConnectionError (OSError EHOSTUNREACH) = false).
Proof. repeat split; reflexivity. Qed.

(** ** One [send] per request *)

(** C6. The request is handed to a single [send], whose count is ignored.
    With a kernel that takes 10 bytes, [list_tools] puts the first 10 bytes
    of its 52-byte line on the wire, goes on to read, and returns the reply
    as if the request had been sent.  A failing [send] does surface: its
    OSError leaves [send_request]. *)
Theorem send_may_stop_short :
  (let E := short_send 10 demo_replies in
   let st := connected (fresh (py "localhost") 9001) in
   let line := jtext "{'jsonrpc': '2.0', 'id': 1, 'method': 'tools/list'}" ++ [NEWLINE] in
   fst (list_tools E st) =
     Ret (PyDict [(py "jsonrpc", PyStr (py "2.0")); (py "id", PyInt 1);
                  (py "result", PyDict [(py "tools", PyList [])])])
   /\ outgoing (net (snd (list_tools E st))) = [ascii_bytes line]
   /\ List.length line = 52%nat
   /\ on_the_wire (net (snd (list_tools E st))) = ascii_bytes (firstn 10 line))
  /\
  (forall (E : environment) (method : pystr) (params : pyval) (st : state)
          (errno : Z),
      sock (self st) = Some Connected ->
      (forall data, on_send E (net st) data = SendFails errno) ->
      fst (send_request E method params st) = Raise (OSError errno)).
Proof.
  split.
  - vm_compute. repeat split; reflexivity.
  - intros E method params st errno Hs Hsend.
    unfold send_request. run. rewrite Hs. run. rewrite to_wire_ascii. run.
    rewrite Hsend. reflexivity.
Qed.

(** ** Strings: [scanstring] reads back what [encode_basestring_ascii] wrote *)

Lemma lor_shiftl_low (hi lo k : N) :
  lo < 2 ^ k -> N.lor (N.shiftl hi k) lo = hi * 2 ^ k + lo.
Proof.
  intro H.
  assert (Hd : N.land (N.shiftl hi k) lo = 0).
  { apply N.bits_inj. intro i. rewrite N.land_spec, N.bits_0.
    destruct (N.lt_ge_cases i k) as [Hi | Hi].
    - rewrite N.shiftl_spec_low by exact Hi. reflexivity.
    - destruct (N.eq_dec lo 0) as [-> | Hz].
      + rewrite N.bits_0. apply andb_false_r.
      + rewrite (N.bits_above_log2 lo i), andb_false_r; [ reflexivity | ].
        apply N.lt_le_trans with k; [ | exact Hi ].
        apply N.log2_lt_pow2; [ lia | exact H ]. }
  rewrite <- N.lxor_lor, <- N.add_nocarry_lxor by exact Hd.
  rewrite N.shiftl_mul_pow2. reflexivity.
Qed.

Lemma hex_value_hex_digit (d : N) : d <= 15 -> hex_value (hex_digit d) = Some d.
Proof.
  intro H. unfold hex_digit, hex_value.
  destruct (d <? 10) eqn:E.
  - apply N.ltb_lt in E.
    replace ((48 <=? 48 + d) && (48 + d <=? 57)) with true
      by (symmetry; apply andb_true_intro; split; apply N.leb_le; lia).
    f_equal. lia.
  - apply N.ltb_ge in E.
    replace ((48 <=? 87 + d) && (87 + d <=? 57)) with false
      by (symmetry; apply andb_false_intro2; apply N.leb_gt; lia).
    replace ((97 <=? 87 + d) && (87 + d <=? 102)) with true
      by (symmetry; apply andb_true_intro; split; apply N.leb_le; lia).
    f_equal. lia.
Qed.

Lemma nibble (n k : N) : N.land (N.shiftr n k) 0xF = (n / 2 ^ k) mod 16.
Proof. rewrite N.shiftr_div_pow2. apply (N.land_ones _ 4). Qed.

Lemma low_nibble (n : N) : N.land n 0xF = n mod 16.
Proof. apply (N.land_ones n 4). Qed.

Lemma radix16 (n : N) :
  n < 65536 ->
  (((n / 16 / 16 / 16) mod 16 * 16 + (n / 16 / 16) mod 16) * 16
   + (n / 16) mod 16) * 16 + n mod 16 = n.
Proof.
  intro H.
  pose proof (N.Div0.div_mod n 16).
  pose proof (N.Div0.div_mod (n / 16) 16).
  pose proof (N.Div0.div_mod (n / 16 / 16) 16).
  pose proof (N.Div0.div_mod (n / 16 / 16 / 16) 16).
  pose proof (N.mod_lt n 16).
  pose proof (N.mod_lt (n / 16) 16).
  pose proof (N.mod_lt (n / 16 / 16) 16).
  pose proof (N.mod_lt (n / 16 / 16 / 16) 16).
  generalize dependent (n mod 16).
  generalize dependent ((n / 16) mod 16).
  generalize dependent ((n / 16 / 16) mod 16).
  generalize dependent ((n / 16 / 16 / 16) mod 16).
  generalize dependent (n / 16 / 16 / 16 / 16).
  generalize dependent (n / 16 / 16 / 16).
  generalize dependent (n / 16 / 16).
  generalize dependent (n / 16).
  intros. lia.
Qed.

Lemma decode_uXXXX_u_escape (n : N) :
  n < 0x10000 ->
  exists h1 h2 h3 h4,
    u_escape n = [92; 117; h1; h2; h3; h4]
    /\ decode_uXXXX h1 h2 h3 h4 = Some n.
Proof.
  intro H. unfold u_escape. do 4 eexists. split; [ reflexivity | ].
  unfold decode_uXXXX.
  rewrite !hex_value_hex_digit by apply (N.land_le_r _ 0xF).
  f_equal.
  rewrite !(nibble n), (low_nibble n).
  rewrite !lor_shiftl_low by (apply N.mod_lt; discriminate).
  change (2 ^ 12) with 4096. change (2 ^ 8) with 256. change (2 ^ 4) with 16.
  replace (n / 4096) with (n / 16 / 16 / 16)
    by (rewrite !N.Div0.div_div; reflexivity).
  replace (n / 256) with (n / 16 / 16)
    by (rewrite !N.Div0.div_div; reflexivity).
  apply radix16. exact H.
Qed.

(** One \uXXXX escape, when no low surrogate follows a high one. *)
Lemma scanstring_u (h1 h2 h3 h4 uni : N) (s3 : pystr) :
  decode_uXXXX h1 h2 h3 h4 = Some uni ->
  (is_high_surrogate uni = true -> pair_ahead s3 = false) ->
  scanstring (92 :: 117 :: h1 :: h2 :: h3 :: h4 :: s3) =
  ('(str, r) <- scanstring s3 ;; Ret (uni :: str, r)).
Proof.
  intros Hd Hp.
  cbn [scanstring]. change (92 =? 34) with false. change (92 =? 92) with true.
  change (117 =? 117) with true. cbv iota. rewrite Hd.
  destruct s3 as [ | b [ | u [ | g1 [ | g2 [ | g3 [ | g4 s4 ] ] ] ] ] ];
    try reflexivity.
  destruct (is_high_surrogate uni) eqn:Hh; [ | reflexivity ].
  specialize (Hp eq_refl). cbn [pair_ahead] in Hp.
  destruct (b =? 92); [ | reflexivity ].
  destruct (u =? 117); [ | reflexivity ].
  cbn [andb] in *.
  destruct (decode_uXXXX g1 g2 g3 g4) as [ uni2 | ]; [ | discriminate Hp ].
  rewrite Hp. reflexivity.
Qed.

(** A surrogate pair, as written for a character above U+FFFF. *)
Lemma scanstring_pair (h1 h2 h3 h4 g1 g2 g3 g4 uni uni2 : N) (s4 : pystr) :
  decode_uXXXX h1 h2 h3 h4 = Some uni ->
  decode_uXXXX g1 g2 g3 g4 = Some uni2 ->
  is_high_surrogate uni = true ->
  is_low_surrogate uni2 = true ->
  scanstring (92 :: 117 :: h1 :: h2 :: h3 :: h4 :: 92 :: 117 :: g1 :: g2 :: g3 :: g4 :: s4) =
  ('(str, r) <- scanstring s4 ;; Ret (join_surrogates uni uni2 :: str, r)).
Proof.
  intros Hd Hd2 Hh Hl.
  cbn [scanstring]. change (92 =? 34) with false. change (92 =? 92) with true.
  change (117 =? 117) with true. cbv iota. rewrite Hd, Hh. cbn [andb].
  rewrite Hd2, Hl. reflexivity.
Qed.

Lemma lor_D800 (x : N) : x < 1024 -> N.lor 0xD800 x = 0xD800 + x.
Proof.
  intro H. change 0xD800 with (N.shiftl 54 10) at 1.
  rewrite lor_shiftl_low by exact H. reflexivity.
Qed.

Lemma lor_DC00 (x : N) : x < 1024 -> N.lor 0xDC00 x = 0xDC00 + x.
Proof.
  intro H. change 0xDC00 with (N.shiftl 55 10) at 1.
  rewrite lor_shiftl_low by exact H. reflexivity.
Qed.

Lemma low10 (x : N) : N.land x 0x3FF = x mod 1024.
Proof. apply (N.land_ones x 10). Qed.

(** The two halves written for a character above U+FFFF. *)
Lemma surrogates_of (c : N) :
  0x10000 <= c -> c < 0x110000 ->
  let n := c - 0x10000 in
  let s1 := N.lor 0xD800 (N.land (N.shiftr n 10) 0x3FF) in
  let s2 := N.lor 0xDC00 (N.land n 0x3FF) in
  s1 < 0x10000 /\ s2 < 0x10000
  /\ is_high_surrogate s1 = true /\ is_low_surrogate s2 = true
  /\ join_surrogates s1 s2 = c.
Proof.
  intros Hlo Hhi n s1 s2.
  assert (Hn : n < 0x100000) by (unfold n; lia).
  assert (Hq : n / 1024 < 1024)
    by (apply N.Div0.div_lt_upper_bound; exact Hn).
  assert (Hr : n mod 1024 < 1024) by (apply N.mod_lt; discriminate).
  assert (E1 : s1 = 0xD800 + n / 1024).
  { unfold s1. rewrite low10, N.shiftr_div_pow2. change (2 ^ 10) with 1024.
    rewrite N.mod_small by exact Hq. apply lor_D800. exact Hq. }
  assert (E2 : s2 = 0xDC00 + n mod 1024).
  { unfold s2. rewrite low10. apply lor_DC00. exact Hr. }
  rewrite E1, E2. clear E1 E2 s1 s2.
  pose proof (N.Div0.div_mod n 1024) as Hdm.
  assert (Hcn : c = 0x10000 + n) by (unfold n; lia).
  clearbody n.
  generalize dependent (n / 1024). generalize dependent (n mod 1024).
  intros r Hr q Hq Hdm.
  repeat split; try lia.
  - unfold is_high_surrogate. apply andb_true_intro. split; apply N.leb_le; lia.
  - unfold is_low_surrogate. apply andb_true_intro. split; apply N.leb_le; lia.
  - unfold join_surrogates.
    replace (0xD800 + q - 0xD800) with q by lia.
    replace (0xDC00 + r - 0xDC00) with r by lia.
    rewrite lor_shiftl_low by exact Hr. change (2 ^ 10) with 1024. lia.
Qed.

(** [scanstring] over the escape of one character. *)
Lemma scanstring_escape_char (c : N) (t : pystr) :
  is_code_point c = true ->
  (is_high_surrogate c = true -> pair_ahead t = false) ->
  scanstring (escape_char c ++ t) =
  ('(str, r) <- scanstring t ;; Ret (c :: str, r)).
Proof.
  intros Hc Hp. unfold escape_char.
  destruct (c =? 34) eqn:E34; [ apply N.eqb_eq in E34; subst c; reflexivity | ].
  destruct (c =? 92) eqn:E92; [ apply N.eqb_eq in E92; subst c; reflexivity | ].
  destruct ((32 <=? c) && (c <=? 126)) eqn:Epr.
  { apply andb_prop in Epr. destruct Epr as [Hge _]. apply N.leb_le in Hge.
    cbn [app scanstring]. rewrite E34, E92.
    replace (c <? 32) with false by (symmetry; apply N.ltb_ge; exact Hge).
    reflexivity. }
  destruct (c =? 10) eqn:E10; [ apply N.eqb_eq in E10; subst c; reflexivity | ].
  destruct (c =? 13) eqn:E13; [ apply N.eqb_eq in E13; subst c; reflexivity | ].
  destruct (c =? 9) eqn:E9; [ apply N.eqb_eq in E9; subst c; reflexivity | ].
  destruct (c =? 12) eqn:E12; [ apply N.eqb_eq in E12; subst c; reflexivity | ].
  destruct (c =? 8) eqn:E8; [ apply N.eqb_eq in E8; subst c; reflexivity | ].
  destruct (c <? 0x10000) eqn:Ebmp.
  - apply N.ltb_lt in Ebmp.
    destruct (decode_uXXXX_u_escape Ebmp) as (h1 & h2 & h3 & h4 & -> & Hd).
    apply (scanstring_u _ _ _ _ _ Hd Hp).
  - apply N.ltb_ge in Ebmp. apply N.ltb_lt in Hc.
    destruct (surrogates_of Ebmp Hc) as (H1 & H2 & Hh & Hl & Hj).
    cbv zeta in *.
    destruct (decode_uXXXX_u_escape H1) as (h1 & h2 & h3 & h4 & -> & Hd1).
    destruct (decode_uXXXX_u_escape H2) as (g1 & g2 & g3 & g4 & -> & Hd2).
    cbn [app].
    rewrite (scanstring_pair _ _ _ _ _ _ _ _ _ Hd1 Hd2 Hh Hl), Hj.
    reflexivity.
Qed.

Lemma pair_ahead_other (b : N) (t : pystr) :
  (b =? 92) = false -> pair_ahead (b :: t) = false.
Proof.
  intro H. destruct t as [ | ? [ | ? [ | ? [ | ? [ | ? ? ] ] ] ] ]; try reflexivity.
  cbn [pair_ahead]. rewrite H. reflexivity.
Qed.

(** The escape of a character that is not a low surrogate does not read as
    the second half of a pair. *)
Lemma pair_ahead_escape_char (c : N) (t : pystr) :
  is_code_point c = true ->
  is_low_surrogate c = false ->
  pair_ahead (escape_char c ++ t) = false.
Proof.
  intros Hc Hl. unfold escape_char.
  destruct (c =? 34) eqn:E34; [ destruct t as [ | ? [ | ? [ | ? [ | ? ? ] ] ] ]; reflexivity | ].
  destruct (c =? 92) eqn:E92; [ destruct t as [ | ? [ | ? [ | ? [ | ? ? ] ] ] ]; reflexivity | ].
  destruct ((32 <=? c) && (c <=? 126)) eqn:Epr.
  { cbn [app]. destruct t as [ | ? [ | ? [ | ? [ | ? [ | ? ? ] ] ] ] ]; try reflexivity.
    cbn [pair_ahead]. rewrite E92. reflexivity. }
  destruct (c =? 10); [ destruct t as [ | ? [ | ? [ | ? [ | ? ? ] ] ] ]; reflexivity | ].
  destruct (c =? 13); [ destruct t as [ | ? [ | ? [ | ? [ | ? ? ] ] ] ]; reflexivity | ].
  destruct (c =? 9); [ destruct t as [ | ? [ | ? [ | ? [ | ? ? ] ] ] ]; reflexivity | ].
  destruct (c =? 12); [ destruct t as [ | ? [ | ? [ | ? [ | ? ? ] ] ] ]; reflexivity | ].
  destruct (c =? 8); [ destruct t as [ | ? [ | ? [ | ? [ | ? ? ] ] ] ]; reflexivity | ].
  destruct (c <? 0x10000) eqn:Ebmp.
  - apply N.ltb_lt in Ebmp.
    destruct (decode_uXXXX_u_escape Ebmp) as (h1 & h2 & h3 & h4 & -> & Hd).
    cbn [app pair_ahead]. rewrite Hd, Hl. reflexivity.
  - apply N.ltb_ge in Ebmp. apply N.ltb_lt in Hc.
    destruct (surrogates_of Ebmp Hc) as (H1 & H2 & Hh & Hl2 & Hj).
    cbv zeta in *.
    destruct (decode_uXXXX_u_escape H1) as (h1 & h2 & h3 & h4 & -> & Hd1).
    cbn [app pair_ahead]. rewrite Hd1.
    replace (is_low_surrogate _) with false; [ reflexivity | ].
    symmetry. unfold is_high_surrogate in Hh. unfold is_low_surrogate.
    apply andb_prop in Hh. destruct Hh as [_ Hh]. apply N.leb_le in Hh.
    apply andb_false_intro1. apply N.leb_gt. lia.
Qed.

Lemma scanstring_escaped (s rest : pystr) :
  wf_str s = true ->
  scanstring (flat_map escape_char s ++ QUOTE :: rest) = Ret (s, rest).
Proof.
  unfold wf_str. intro H. apply andb_prop in H. destruct H as [Hcp Hns].
  induction s as [ | c s IH ].
  - reflexivity.
  - cbn [forallb] in Hcp. apply andb_prop in Hcp. destruct Hcp as [Hc Hcp].
    cbn [no_surrogate_pair] in Hns. apply andb_prop in Hns.
    destruct Hns as [Hpair Hns].
    cbn [flat_map]. rewrite <- List.app_assoc.
    rewrite scanstring_escape_char; [ rewrite (IH Hcp Hns); reflexivity | exact Hc | ].
    intro Hh. destruct s as [ | c2 s' ].
    + apply pair_ahead_other. reflexivity.
    + cbn [forallb] in Hcp. apply andb_prop in Hcp. destruct Hcp as [Hc2 _].
      rewrite Hh in Hpair. cbn [andb negb] in Hpair.
      cbn [flat_map]. rewrite <- List.app_assoc.
      apply pair_ahead_escape_char; [ exact Hc2 | ].
      destruct (is_low_surrogate c2); [ discriminate Hpair | reflexivity ].
Qed.

Lemma scanstring_encode_basestring_ascii (s rest : pystr) :
  wf_str s = true ->
  exists t, encode_basestring_ascii s ++ rest = QUOTE :: t
            /\ scanstring t = Ret (s, rest).
Proof.
  intro H. unfold encode_basestring_ascii.
  exists (flat_map escape_char s ++ QUOTE :: rest). split.
  - cbn [app]. rewrite <- List.app_assoc. reflexivity.
  - apply scanstring_escaped. exact H.
Qed.

(** ** Integers: the number lexer reads back what [int.__repr__] wrote *)

Lemma uint_of_chars_uint_chars (d : Decimal.uint) :
  uint_of_chars (uint_chars d) = d.
Proof. induction d; cbn [uint_chars uint_of_chars]; rewrite ?IHd; reflexivity. Qed.

Lemma ends_number_not_digit (c : N) (rest : pystr) :
  ends_number (c :: rest) = true ->
  is_digit c = false /\ (c =? 46) = false /\ (c =? 101) = false /\ (c =? 69) = false.
Proof.
  cbn [ends_number]. intro H. apply negb_true_iff in H.
  repeat (apply orb_false_elim in H; destruct H as [H ?]). auto.
Qed.

Lemma span_digits_uint_chars (d : Decimal.uint) (rest : pystr) :
  ends_number rest = true ->
  span_digits (uint_chars d ++ rest) = (uint_chars d, rest).
Proof.
  intro H.
  induction d; cbn [uint_chars app span_digits];
    try (change (is_digit _) with true; cbv iota; rewrite IHd; reflexivity).
  destruct rest as [ | c rest ]; [ reflexivity | ].
  destruct (ends_number_not_digit _ _ H) as [Hd _].
  cbn [span_digits]. rewrite Hd. reflexivity.
Qed.

Lemma no_fraction_no_exponent (rest : pystr) :
  ends_number rest = true -> match_frac rest = None /\ match_exp rest = None.
Proof.
  intro H. destruct rest as [ | c rest ]; [ split; reflexivity | ].
  destruct (ends_number_not_digit _ _ H) as (_ & H46 & H101 & H69).
  unfold match_frac, match_exp. rewrite H46, H101, H69. split; reflexivity.
Qed.

(** The digits of a positive number do not start with 0. *)
Lemma to_uint_head (p : positive) :
  exists c ds, uint_chars (Pos.to_uint p) = c :: ds
               /\ is_digit c = true /\ (c =? 48) = false /\ (c =? 45) = false
               /\ exists d, ds = uint_chars d.
Proof.
  assert (Hn : Decimal.unorm (Pos.to_uint p) = Pos.to_uint p).
  { rewrite <- DecimalPos.Unsigned.to_of, DecimalPos.Unsigned.of_to. reflexivity. }
  pose proof (DecimalPos.Unsigned.to_uint_nonzero p) as Hz.
  unfold Decimal.unorm in Hn.
  destruct (Pos.to_uint p) as [ | d | d | d | d | d | d | d | d | d | d ];
    try (do 2 eexists; split; [ reflexivity | ];
         repeat split; try reflexivity; eexists; reflexivity).
  - cbn in Hn. discriminate Hn.
  - exfalso. cbn [Decimal.nzhead] in Hn.
    pose proof (DecimalFacts.nb_digits_nzhead d) as Hlen.
    destruct (Decimal.nzhead d) eqn:E; try discriminate Hn.
    + apply Hz. symmetry. exact Hn.
    + injection Hn as Hn. subst. cbn [Decimal.nb_digits] in Hlen. lia.
Qed.

Lemma match_number_int_repr (z : Z) (rest : pystr) :
  ends_number rest = true ->
  match_number (int_repr z ++ rest) = Some (IntLit z, rest).
Proof.
  intro H.
  destruct (no_fraction_no_exponent _ H) as [Hf He].
  assert (Hpos : forall p neg,
             match_number ((if neg : bool then [45] else []) ++
                           uint_chars (Pos.to_uint p) ++ rest) =
             Some (IntLit (Z.of_int (if neg then Decimal.Neg (Pos.to_uint p)
                                     else Decimal.Pos (Pos.to_uint p))), rest)).
  { intros p neg.
    destruct (to_uint_head p) as (c & ds & Hcs & Hd & H48 & H45 & d & ->).
    assert (Hback : uint_of_chars (c :: uint_chars d) = Pos.to_uint p)
      by (rewrite <- Hcs; apply uint_of_chars_uint_chars).
    rewrite Hcs.
    assert (Hint : match_integer (c :: uint_chars d ++ rest) =
                   Some (c :: uint_chars d, rest)).
    { cbn [match_integer]. rewrite H48, Hd.
      rewrite span_digits_uint_chars by exact H. reflexivity. }
    unfold match_number.
    destruct neg; cbn [app].
    - change (45 =? 45) with true. cbv iota.
      rewrite Hint, Hf, He. cbn [orb]. rewrite Hback. reflexivity.
    - rewrite H45, Hint, Hf, He. cbn [orb]. rewrite Hback. reflexivity. }
  destruct z as [ | p | p ].
  - cbn [int_repr Z.to_int uint_chars app]. unfold match_number.
    change (48 =? 45) with false. cbv iota. cbn [match_integer].
    change (48 =? 48) with true. cbv iota. rewrite Hf, He. reflexivity.
  - rewrite <- (DecimalZ.of_to (Z.pos p)) at 2. apply (Hpos p false).
  - rewrite <- (DecimalZ.of_to (Z.neg p)) at 2. apply (Hpos p true).
Qed.

(** ** Where the text of a value starts and ends *)

Lemma value_start_cases (c : N) :
  value_start c = true ->
  is_ws c = false /\ isspace c = false /\ (c =? 93) = false
  /\ (c =? 125) = false /\ (c =? 0xFEFF) = false.
Proof.
  unfold value_start. intro H.
  repeat (apply orb_prop in H; destruct H as [H | H]);
    try (apply N.eqb_eq in H; subst c; repeat split; reflexivity).
  unfold is_digit in H. apply andb_prop in H. destruct H as [H1 H2].
  apply N.leb_le in H1. apply N.leb_le in H2.
  unfold is_ws, isspace.
  repeat split;
    repeat match goal with
      | |- (_ || _) = false => apply orb_false_intro
      | |- (_ && _) = false =>
          first [ apply andb_false_intro1; apply N.leb_gt; lia
                | apply andb_false_intro2; apply N.leb_gt; lia ]
      | |- (_ =? _) = false => apply N.eqb_neq; lia
      end.
Qed.

Lemma value_end_cases (c : N) : value_end c = true -> isspace c = false.
Proof.
  unfold value_end. intro H.
  repeat (apply orb_prop in H; destruct H as [H | H]);
    try (apply N.eqb_eq in H; subst c; reflexivity).
  unfold is_digit in H. apply andb_prop in H. destruct H as [H1 H2].
  apply N.leb_le in H1. apply N.leb_le in H2.
  unfold isspace.
  repeat match goal with
    | |- (_ || _) = false => apply orb_false_intro
    | |- (_ && _) = false =>
        first [ apply andb_false_intro1; apply N.leb_gt; lia
              | apply andb_false_intro2; apply N.leb_gt; lia ]
    | |- (_ =? _) = false => apply N.eqb_neq; lia
    end.
Qed.

Lemma is_digit_value_start (c : N) : is_digit c = true -> value_start c = true.
Proof. intro H. unfold value_start. rewrite H. reflexivity. Qed.

Lemma is_digit_value_end (c : N) : is_digit c = true -> value_end c = true.
Proof. intro H. unfold value_end. rewrite H. reflexivity. Qed.

Lemma int_repr_first (z : Z) :
  exists c t, int_repr z = c :: t /\ (is_digit c = true \/ c = 45).
Proof.
  destruct z as [ | p | p ]; cbn [int_repr Z.to_int].
  - do 2 eexists. split; [ reflexivity | left; reflexivity ].
  - destruct (to_uint_head p) as (c & ds & -> & Hd & _).
    do 2 eexists. split; [ reflexivity | left; exact Hd ].
  - do 2 eexists. split; [ reflexivity | right; reflexivity ].
Qed.

Lemma digits_last (s : pystr) :
  s <> [] -> Forall (fun c => is_digit c = true) s ->
  exists t c, s = t ++ [c] /\ is_digit c = true.
Proof.
  intros Hne Hall.
  destruct (exists_last Hne) as (t & c & ->).
  exists t, c. split; [ reflexivity | ].
  apply Forall_app in Hall. destruct Hall as [_ Hc].
  inversion Hc. assumption.
Qed.

Lemma int_repr_last (z : Z) :
  exists t c, int_repr z = t ++ [c] /\ is_digit c = true.
Proof.
  destruct z as [ | p | p ]; cbn [int_repr Z.to_int].
  - exists [], 48. split; reflexivity.
  - apply digits_last; [ | apply uint_chars_digits ].
    destruct (to_uint_head p) as (c & ds & -> & _). discriminate.
  - destruct (@digits_last (uint_chars (Pos.to_uint p))) as (t & c & E & Hc);
      [ | apply uint_chars_digits | ].
    + destruct (to_uint_head p) as (c & ds & -> & _). discriminate.
    + exists (45 :: t), c. rewrite E. split; [ reflexivity | exact Hc ].
Qed.

Lemma dumps_with_first (isep ksep : pystr) (v : pyval) :
  exists c t, dumps_with isep ksep v = c :: t /\ value_start c = true.
Proof.
  destruct v as [ | [ | ] | z | s | l | d ];
    try (do 2 eexists; split; [ reflexivity | reflexivity ]).
  destruct (int_repr_first z) as (c & t & E & [Hd | ->]).
  - exists c, t. split; [ exact E | apply is_digit_value_start; exact Hd ].
  - exists 45, t. split; [ exact E | reflexivity ].
Qed.

Lemma dumps_with_last (isep ksep : pystr) (v : pyval) :
  exists t c, dumps_with isep ksep v = t ++ [c] /\ value_end c = true.
Proof.
  destruct v as [ | [ | ] | z | s | l | d ].
  - exists (py "nul"), 108. split; reflexivity.
  - exists (py "tru"), 101. split; reflexivity.
  - exists (py "fals"), 101. split; reflexivity.
  - destruct (int_repr_last z) as (t & c & E & Hd).
    exists t, c. split; [ exact E | apply is_digit_value_end; exact Hd ].
  - exists (QUOTE :: flat_map escape_char s), 34. split; reflexivity.
  - rewrite dumps_with_PyList. eexists (_ ++ _), 93.
    rewrite <- List.app_assoc. split; reflexivity.
  - rewrite dumps_with_PyDict. eexists (_ ++ _), 125.
    rewrite <- List.app_assoc. split; reflexivity.
Qed.

Lemma skip_ws_dumps (isep ksep : pystr) (v : pyval) (rest : pystr) :
  skip_ws (dumps_with isep ksep v ++ rest) = dumps_with isep ksep v ++ rest.
Proof.
  destruct (dumps_with_first isep ksep v) as (c & t & -> & Hc).
  destruct (value_start_cases _ Hc) as (Hws & _).
  cbn [app skip_ws]. rewrite Hws. reflexivity.
Qed.

Lemma skip_ws_whitespace (ws t : pystr) :
  forallb is_ws ws = true -> skip_ws (ws ++ t) = skip_ws t.
Proof.
  induction ws as [ | c ws IH ]; cbn [forallb app skip_ws]; intro H;
    [ reflexivity | ].
  apply andb_prop in H. destruct H as [Hc Hws]. rewrite Hc. apply IH. exact Hws.
Qed.

(** A line without its newline, as [str.strip] leaves it. *)
Lemma strip_line (c c' : N) (mid : pystr) (nl : bool) :
  isspace c = false -> isspace c' = false ->
  strip (c :: mid ++ c' :: (if nl then [NEWLINE] else [])) = c :: mid ++ [c'].
Proof.
  intros Hc Hc'. unfold strip, rstrip. cbn [lstrip]. rewrite Hc.
  change (c :: mid ++ c' :: (if nl then [NEWLINE] else []))
    with ((c :: mid) ++ c' :: (if nl then [NEWLINE] else [])).
  rewrite rev_app_distr.
  assert (Hl : lstrip (rev (c' :: (if nl then [NEWLINE] else [])) ++ rev (c :: mid))
               = c' :: rev (c :: mid)).
  { destruct nl; cbn [rev app lstrip].
    - change (isspace NEWLINE) with true. cbv iota. rewrite Hc'. reflexivity.
    - rewrite Hc'. reflexivity. }
  rewrite Hl.
  change (rev (c' :: rev (c :: mid))) with (rev (rev (c :: mid)) ++ [c']).
  rewrite rev_involutive. reflexivity.
Qed.

(** The text of a value, with or without a newline after it, stripped. *)
Lemma strip_dumps_with (isep ksep : pystr) (v : pyval) (nl : bool) :
  strip (dumps_with isep ksep v ++ (if nl then [NEWLINE] else [])) =
  dumps_with isep ksep v.
Proof.
  destruct (dumps_with_first isep ksep v) as (c & t & E & Hc).
  destruct (value_start_cases _ Hc) as (_ & Hsp & _).
  destruct (dumps_with_last isep ksep v) as (t' & c' & E' & Hc').
  pose proof (value_end_cases _ Hc') as Hsp'.
  destruct t' as [ | c0 t' ].
  - (* one character *)
    rewrite E' in E. cbn [app] in E. injection E as <- <-.
    rewrite E'. cbn [app].
    unfold strip, rstrip.
    destruct nl; cbn [app lstrip]; rewrite Hsp'; cbn [rev app lstrip];
      [ change (isspace NEWLINE) with true; cbv iota | ];
      rewrite Hsp'; reflexivity.
  - rewrite E' in E. cbn [app] in E. injection E as <- _.
    rewrite E'. cbn [app]. rewrite <- List.app_assoc. cbn [app].
    apply strip_line; assumption.
Qed.

Lemma strip_request_json (v : pyval) : strip (request_json v) = dumps v.
Proof. apply (strip_dumps_with item_separator key_separator v true). Qed.

(** ** [dict(pairs)] on distinct keys *)

Lemma pystr_eqb_sym (a b : pystr) : pystr_eqb a b = pystr_eqb b a.
Proof.
  revert b. induction a as [ | x a IH ]; intros [ | y b ]; cbn; try reflexivity.
  rewrite N.eqb_sym, IH. reflexivity.
Qed.

Lemma dict_set_fresh (d : list (pystr * pyval)) (k : pystr) (v : pyval) :
  existsb (pystr_eqb k) (map fst d) = false ->
  dict_set d k v = d ++ [(k, v)].
Proof.
  induction d as [ | [k' v'] d IH ]; cbn [map fst existsb dict_set app]; intro H.
  - reflexivity.
  - apply orb_false_elim in H. destruct H as [Hk Hd].
    rewrite pystr_eqb_sym, Hk, (IH Hd). reflexivity.
Qed.

Lemma existsb_app_false {A} (f : A -> bool) (l l' : list A) :
  existsb f (l ++ l') = false <-> existsb f l = false /\ existsb f l' = false.
Proof. rewrite existsb_app. apply orb_false_iff. Qed.

Lemma dict_of_pairs_distinct_from (d acc : list (pystr * pyval)) :
  distinct (map fst (acc ++ d)) = true ->
  fold_left (fun m kv => dict_set m (fst kv) (snd kv)) d acc = acc ++ d.
Proof.
  revert acc. induction d as [ | [k v] d IH ]; intros acc H; cbn [fold_left fst snd].
  - rewrite List.app_nil_r. reflexivity.
  - assert (Hfresh : existsb (pystr_eqb k) (map fst acc) = false).
    { clear IH. induction acc as [ | [k' v'] acc IHacc ]; [ reflexivity | ].
      cbn [map fst app distinct existsb] in *.
      apply andb_prop in H. destruct H as [Hk' Hrest].
      apply negb_true_iff in Hk'. rewrite map_app in Hk'.
      apply existsb_app_false in Hk'. destruct Hk' as [_ Hk'].
      cbn [map fst existsb] in Hk'. apply orb_false_elim in Hk'.
      destruct Hk' as [Hk' _].
      rewrite pystr_eqb_sym, Hk'. cbn [orb]. apply IHacc. exact Hrest. }
    rewrite (@dict_set_fresh acc k v Hfresh).
    rewrite IH; rewrite <- List.app_assoc; [ reflexivity | exact H ].
Qed.

Lemma dict_of_pairs_distinct (d : list (pystr * pyval)) :
  distinct (map fst d) = true -> dict_of_pairs d = d.
Proof. intro H. apply (dict_of_pairs_distinct_from d [] H). Qed.

(** ** Values: [scan_once] reads back what [dumps] wrote *)

Lemma scan_once_number (fuel : nat) (c : N) (t : pystr) :
  is_digit c = true \/ c = 45 ->
  scan_once (S fuel) (c :: t) =
  match match_number (c :: t) with
  | Some (IntLit z, r) => Ret (PyInt z, r)
  | Some (FloatLit, _) => Unmodelled FloatValue
  | None =>
      if startswith (py "NaN") (c :: t) || startswith (py "Infinity") (c :: t)
         || startswith (py "-Infinity") (c :: t)
      then Unmodelled FloatValue
      else Raise JSONDecodeError
  end.
Proof.
  intros [H | ->]; [ | reflexivity ].
  cbn [scan_once].
  assert (Hne : forall k, is_digit k = false -> (c =? k) = false /\ (k =? c) = false).
  { intros k Hk. split; apply N.eqb_neq; intros ->; congruence. }
  destruct (Hne 34 eq_refl) as [-> _].
  destruct (Hne 123 eq_refl) as [-> _].
  destruct (Hne 91 eq_refl) as [-> _].
  change (py "null") with [110; 117; 108; 108].
  change (py "true") with [116; 114; 117; 101].
  change (py "false") with [102; 97; 108; 115; 101].
  cbn [startswith].
  destruct (Hne 110 eq_refl) as [_ ->].
  destruct (Hne 116 eq_refl) as [_ ->].
  destruct (Hne 102 eq_refl) as [_ ->].
  reflexivity.
Qed.

Lemma scan_once_int (fuel : nat) (z : Z) (rest : pystr) :
  ends_number rest = true ->
  scan_once (S fuel) (int_repr z ++ rest) = Ret (PyInt z, rest).
Proof.
  intro H.
  pose proof (@match_number_int_repr z rest H) as Hm.
  destruct (int_repr_first z) as (c & t & E & Hc).
  rewrite E in *. cbn [app] in *.
  rewrite (@scan_once_number fuel c (t ++ rest) Hc), Hm. reflexivity.
Qed.

Lemma scan_once_str (fuel : nat) (s rest : pystr) :
  wf_str s = true ->
  scan_once (S fuel) (encode_basestring_ascii s ++ rest) = Ret (PyStr s, rest).
Proof.
  intro H.
  destruct (@scanstring_encode_basestring_ascii s rest H) as (t & -> & Ht).
  cbn [scan_once]. change (QUOTE =? 34) with true. cbv iota.
  rewrite Ht. reflexivity.
Qed.

Lemma ends_number_value_delimiter (c : N) (t : pystr) :
  c = 44 \/ c = 93 \/ c = 125 -> ends_number (c :: t) = true.
Proof. intros [-> | [-> | ->]]; reflexivity. Qed.

Ltac closed_N c :=
  lazymatch c with
  | N0 => idtac
  | Npos _ => idtac
  end.

(** Run the scanner over the characters that are known. *)
Ltac lex_step :=
  match goal with
  | |- context [is_ws ?c] =>
      closed_N c;
      let b := eval vm_compute in (is_ws c) in change (is_ws c) with b
  | |- context [N.eqb ?a ?b] =>
      closed_N a; closed_N b;
      let r := eval vm_compute in (N.eqb a b) in change (N.eqb a b) with r
  end.

Ltac lex :=
  cbv [QUOTE];
  repeat (first [ progress cbn [rbind skip_ws] | lex_step | progress cbv iota ]).


Lemma join_length (sep : pystr) (parts : list pystr) :
  Forall (fun p => p <> []) parts ->
  (List.length parts <= List.length (join sep parts))%nat.
Proof.
  induction 1 as [ | p ps Hp Hps IH ]; [ apply Nat.le_refl | ].
  destruct ps as [ | q ps' ].
  - cbn [join List.length]. destruct p; [ contradiction | cbn; lia ].
  - change (join sep (p :: q :: ps')) with (p ++ sep ++ join sep (q :: ps')).
    rewrite !List.length_app. cbn [List.length] in *.
    destruct p; [ contradiction | cbn [List.length]; lia ].
Qed.

Lemma join_part_length (sep : pystr) (parts : list pystr) (p : pystr) :
  In p parts -> (List.length p <= List.length (join sep parts))%nat.
Proof.
  induction parts as [ | q qs IH ]; [ contradiction | ].
  destruct qs as [ | r rs ].
  - intros [-> | []]. apply Nat.le_refl.
  - change (join sep (q :: r :: rs)) with (q ++ sep ++ join sep (r :: rs)).
    rewrite !List.length_app.
    intros [-> | H]; [ lia | specialize (IH H); lia ].
Qed.

Lemma join_cons2 (sep p q : pystr) (ps : list pystr) :
  join sep (p :: q :: ps) = p ++ sep ++ join sep (q :: ps).
Proof. reflexivity. Qed.

Section Containers_read_back.
Variables ws ws' : pystr.
Hypothesis Hws : forallb is_ws ws = true.
Hypothesis Hws' : forallb is_ws ws' = true.
Variable scan : pystr -> res (pyval * pystr).

Local Abbreviation isep := (44 :: ws).
Local Abbreviation ksep := (58 :: ws').
Local Abbreviation text := (dumps_with isep ksep).
Local Abbreviation member :=
  (fun kv : pystr * pyval =>
     encode_basestring_ascii (fst kv) ++ ksep ++ dumps_with isep ksep (snd kv)).

Lemma skip_ws_items (x : pyval) (xs : list pyval) (u : pystr) :
  skip_ws (join isep (map text (x :: xs)) ++ u) = join isep (map text (x :: xs)) ++ u.
Proof.
  destruct xs as [ | y ys ].
  - cbn [map join]. apply skip_ws_dumps.
  - cbn [map]. rewrite join_cons2, <- List.app_assoc. apply skip_ws_dumps.
Qed.

Lemma array_loop_reads_back (xs : list pyval) :
  forall (n : nat) (acc : list pyval) (rest : pystr),
  xs <> [] ->
  Forall (reads_back isep ksep scan) xs ->
  (List.length xs <= n)%nat ->
  array_loop scan n (join isep (map text xs) ++ 93 :: rest) acc =
  Ret (PyList (acc ++ xs), rest).
Proof.
  induction xs as [ | x xs IH ]; intros n acc rest Hne Hall Hn;
    [ contradiction | ].
  inversion Hall as [ | ? ? Hx Hxs ]; subst x0 l.
  destruct n as [ | n ]; [ cbn in Hn; lia | ].
  cbn [List.length] in Hn.
  destruct xs as [ | y ys ].
  - cbn [map join array_loop].
    rewrite (Hx (93 :: rest)) by reflexivity. lex. reflexivity.
  - cbn [map]. rewrite join_cons2, <- !List.app_assoc.
    cbn [array_loop app].
    rewrite (Hx (44 :: _)) by reflexivity. lex.
    rewrite skip_ws_whitespace by exact Hws.
    change (text y :: map text ys) with (map text (y :: ys)).
    rewrite skip_ws_items.
    rewrite IH; [ | discriminate | exact Hxs | cbn [List.length] in *; lia ].
    rewrite <- List.app_assoc. reflexivity.
Qed.

Lemma JSONArray_reads_back (l : list pyval) (rest : pystr) :
  Forall (reads_back isep ksep scan) l ->
  JSONArray scan (join isep (map text l) ++ 93 :: rest) = Ret (PyList l, rest).
Proof.
  intro Hall. unfold JSONArray.
  destruct l as [ | x xs ]; [ reflexivity | ].
  rewrite skip_ws_items.
  assert (Hloop : array_loop scan
                    (S (List.length (join isep (map text (x :: xs)) ++ 93 :: rest)))
                    (join isep (map text (x :: xs)) ++ 93 :: rest) []
                  = Ret (PyList (x :: xs), rest)).
  { apply (@array_loop_reads_back (x :: xs)); [ discriminate | exact Hall | ].
    rewrite List.length_app.
    assert (Hlen : (List.length (map text (x :: xs))
                    <= List.length (join isep (map text (x :: xs))))%nat).
    { apply join_length. apply Forall_forall. intros p Hp.
      apply in_map_iff in Hp. destruct Hp as (v & <- & _).
      destruct (dumps_with_first isep ksep v) as (c & t & -> & _). discriminate. }
    rewrite List.length_map in Hlen. lia. }
  destruct (dumps_with_first isep ksep x) as (c & t & E & Hc).
  destruct (value_start_cases _ Hc) as (_ & _ & H93 & _).
  assert (Hhead : exists u, join isep (map text (x :: xs)) ++ 93 :: rest = c :: u).
  { destruct xs as [ | y ys ].
    - cbn [map join]. rewrite E. eexists. reflexivity.
    - cbn [map]. rewrite join_cons2, E. eexists. reflexivity. }
  destruct Hhead as (u & Hu). rewrite Hu in *. rewrite H93. exact Hloop.
Qed.

Lemma object_loop_reads_back (d : list (pystr * pyval)) :
  forall (n : nat) (acc : list (pystr * pyval)) (rest : pystr),
  d <> [] ->
  Forall (fun kv => wf_str (fst kv) = true /\ reads_back isep ksep scan (snd kv)) d ->
  (List.length d <= n)%nat ->
  exists t,
    join isep (map member d) ++ 125 :: rest = QUOTE :: t
    /\ object_loop scan n t acc = Ret (PyDict (dict_of_pairs (acc ++ d)), rest).
Proof.
  induction d as [ | [k x] d IH ]; intros n acc rest Hne Hall Hn;
    [ contradiction | ].
  inversion Hall as [ | ? ? [Hk Hx] Hd ]; subst x0 l. cbn [fst snd] in *.
  destruct n as [ | n ]; [ cbn in Hn; lia | ].
  cbn [List.length] in Hn.
  destruct d as [ | kv d' ].
  - exists (flat_map escape_char k ++ QUOTE :: 58 :: ws' ++ text x ++ 125 :: rest).
    split.
    + cbn [map join fst snd]. unfold encode_basestring_ascii.
      repeat (progress (rewrite <- ?List.app_assoc; cbn [app])). reflexivity.
    + cbn [object_loop]. rewrite (@scanstring_escaped k _ Hk). lex.
      rewrite skip_ws_whitespace by exact Hws'.
      rewrite skip_ws_dumps, (Hx (125 :: rest)) by reflexivity. lex.
      reflexivity.
  - destruct (IH n (acc ++ [(k, x)]) rest) as (t' & Et' & Hloop);
      [ discriminate | exact Hd | cbn [List.length] in *; lia | ].
    exists (flat_map escape_char k ++ QUOTE :: 58 :: ws' ++ text x
            ++ 44 :: ws ++ QUOTE :: t').
    split.
    + cbn [map]. rewrite join_cons2.
      cbn [map] in Et'. rewrite <- !List.app_assoc.
      unfold pystr in *. rewrite Et'.
      cbn [fst snd]. unfold encode_basestring_ascii.
      repeat (progress (rewrite <- ?List.app_assoc; cbn [app])). reflexivity.
    + cbn [object_loop]. rewrite (@scanstring_escaped k _ Hk). lex.
      rewrite skip_ws_whitespace by exact Hws'.
      rewrite skip_ws_dumps, (Hx (44 :: _)) by reflexivity. lex.
      rewrite skip_ws_whitespace by exact Hws. lex.
      rewrite Hloop, <- List.app_assoc. reflexivity.
Qed.

Lemma JSONObject_reads_back (d : list (pystr * pyval)) (rest : pystr) :
  Forall (fun kv => wf_str (fst kv) = true /\ reads_back isep ksep scan (snd kv)) d ->
  distinct (map fst d) = true ->
  JSONObject scan (join isep (map member d) ++ 125 :: rest) = Ret (PyDict d, rest).
Proof.
  intros Hall Hdist. unfold JSONObject.
  destruct d as [ | kv d' ]; [ reflexivity | ].
  set (body := join isep _ ++ 125 :: rest).
  destruct (@object_loop_reads_back (kv :: d') (S (List.length body)) [] rest)
    as (t & Et & Hloop); [ discriminate | exact Hall | | ].
  { unfold body. rewrite List.length_app.
    assert (Hlen : (List.length (map member (kv :: d'))
                    <= List.length (join isep (map member (kv :: d'))))%nat).
    { apply join_length. apply Forall_forall. intros p Hp.
      apply in_map_iff in Hp. destruct Hp as (kv' & <- & _).
      unfold encode_basestring_ascii. discriminate. }
    rewrite List.length_map in Hlen. lia. }
  fold body in Et. rewrite Et. lex.
  rewrite Et in Hloop. cbn [List.length] in Hloop.
  cbn [app] in Hloop. rewrite (@dict_of_pairs_distinct _ Hdist) in Hloop.
  exact Hloop.
Qed.
End Containers_read_back.

Lemma depth_of_element (l : list pyval) (x : pyval) :
  In x l -> (depth x <= fold_right (fun y m => Nat.max (depth y) m) O l)%nat.
Proof.
  induction l as [ | y l IH ]; [ contradiction | ].
  intros [-> | H]; cbn [fold_right]; [ lia | specialize (IH H); lia ].
Qed.

Lemma depth_of_member (d : list (pystr * pyval)) (kv : pystr * pyval) :
  In kv d ->
  (depth (snd kv) <= fold_right (fun y m => Nat.max (depth (snd y)) m) O d)%nat.
Proof.
  induction d as [ | y d IH ]; [ contradiction | ].
  intros [-> | H]; cbn [fold_right]; [ lia | specialize (IH H); lia ].
Qed.

(** The scanner reads back every well-formed value, given fuel above its
    nesting depth. *)
Lemma scan_once_dumps_with (isep ksep : pystr) (v : pyval) :
  separator 44 isep -> separator 58 ksep ->
  wf_val v = true ->
  forall fuel, (depth v < fuel)%nat -> reads_back isep ksep (scan_once fuel) v.
Proof.
  intros (ws & -> & Hws) (ws' & -> & Hws').
  induction v as [ | b | z | s | l IH | d IH ] using pyval_ind;
    intros Hwf fuel Hfuel rest Hrest;
    (destruct fuel as [ | fuel ]; [ inversion Hfuel | ]).
  - reflexivity.
  - destruct b; reflexivity.
  - apply scan_once_int. exact Hrest.
  - apply scan_once_str. exact Hwf.
  - rewrite dumps_with_PyList, <- !List.app_assoc.
    change (py "[" ++ ?t) with (91 :: t). change (py "]" ++ ?t) with (93 :: t).
    cbn [scan_once]. lex.
    apply (@JSONArray_reads_back ws ws' Hws (scan_once fuel) l rest).
    cbn [wf_val] in Hwf. rewrite forallb_forall in Hwf.
    rewrite Forall_forall in IH. apply Forall_forall. intros x Hx.
    apply IH; [ exact Hx | apply Hwf; exact Hx | ].
    cbn [depth] in Hfuel. pose proof (depth_of_element l x Hx). lia.
  - rewrite dumps_with_PyDict, <- !List.app_assoc.
    change (py "{" ++ ?t) with (123 :: t). change (py "}" ++ ?t) with (125 :: t).
    cbn [scan_once]. lex.
    cbn [wf_val] in Hwf. apply andb_prop in Hwf. destruct Hwf as [Hwf Hdist].
    rewrite forallb_forall in Hwf. rewrite Forall_forall in IH.
    apply (@JSONObject_reads_back ws ws' Hws Hws' (scan_once fuel) d rest);
      [ | exact Hdist ].
    apply Forall_forall. intros kv Hkv.
    specialize (Hwf kv Hkv). apply andb_prop in Hwf. destruct Hwf as [Hk Hx].
    split; [ exact Hk | ].
    apply IH; [ exact Hkv | exact Hx | ].
    cbn [depth] in Hfuel. pose proof (depth_of_member d kv Hkv). lia.
Qed.

Lemma depth_le_length (isep ksep : pystr) (v : pyval) :
  (depth v <= List.length (dumps_with isep ksep v))%nat.
Proof.
  induction v as [ | b | z | s | l IH | d IH ] using pyval_ind;
    try (cbn [depth]; lia).
  - rewrite dumps_with_PyList, !List.length_app.
    cbn [depth py List.length map list_ascii_of_string].
    assert (fold_right (fun y m => Nat.max (depth y) m) O l
            <= List.length (join isep (map (dumps_with isep ksep) l)))%nat; [ | lia ].
    induction IH as [ | x l Hx Hl IHl ]; [ apply Nat.le_0_l | ].
    cbn [fold_right map].
    pose proof (@join_part_length isep
                  (dumps_with isep ksep x :: map (dumps_with isep ksep) l)
                  (dumps_with isep ksep x) (or_introl eq_refl)).
    assert (List.length (join isep (map (dumps_with isep ksep) l))
            <= List.length (join isep (dumps_with isep ksep x
                                       :: map (dumps_with isep ksep) l)))%nat.
    { destruct (map (dumps_with isep ksep) l) as [ | q qs ]; [ apply Nat.le_0_l | ].
      rewrite join_cons2, !List.length_app. lia. }
    lia.
  - rewrite dumps_with_PyDict, !List.length_app.
    cbn [depth py List.length map list_ascii_of_string].
    set (member := fun kv : pystr * pyval =>
                     encode_basestring_ascii (fst kv) ++ ksep
                     ++ dumps_with isep ksep (snd kv)).
    assert (fold_right (fun y m => Nat.max (depth (snd y)) m) O d
            <= List.length (join isep (map member d)))%nat; [ | lia ].
    induction IH as [ | x l Hx Hl IHl ]; [ apply Nat.le_0_l | ].
    cbn [fold_right map].
    pose proof (@join_part_length isep (member x :: map member l) (member x)
                  (or_introl eq_refl)).
    assert (List.length (dumps_with isep ksep (snd x)) <= List.length (member x))%nat
      by (unfold member; rewrite !List.length_app; lia).
    assert (List.length (join isep (map member l))
            <= List.length (join isep (member x :: map member l)))%nat.
    { destruct (map member l) as [ | q qs ]; [ apply Nat.le_0_l | ].
      rewrite join_cons2, !List.length_app. unfold pystr in *. lia. }
    lia.
Qed.

(** [json.loads(json.dumps(v, separators=(isep, ksep))) == v] *)
Lemma loads_dumps_with (isep ksep : pystr) (v : pyval) :
  separator 44 isep -> separator 58 ksep ->
  wf_val v = true -> loads (dumps_with isep ksep v) = Ret v.
Proof.
  intros Hisep Hksep Hwf. unfold loads.
  destruct (dumps_with_first isep ksep v) as (c & t & E & Hc).
  destruct (value_start_cases _ Hc) as (_ & _ & _ & _ & Hbom).
  assert (Hb : startswith [0xFEFF] (dumps_with isep ksep v) = false).
  { rewrite E. cbn [startswith]. rewrite N.eqb_sym, Hbom. reflexivity. }
  rewrite Hb. unfold JSONDecoder_decode.
  rewrite <- (List.app_nil_r (dumps_with isep ksep v)) at 2.
  rewrite skip_ws_dumps.
  rewrite (@scan_once_dumps_with isep ksep v Hisep Hksep Hwf
             (S (List.length (dumps_with isep ksep v)))); [ reflexivity | | reflexivity ].
  pose proof (depth_le_length isep ksep v). lia.
Qed.

Lemma default_separators :
  separator 44 item_separator /\ separator 58 key_separator.
Proof. split; exists [32]; split; reflexivity. Qed.

Lemma compact_separators : separator 44 [44] /\ separator 58 [58].
Proof. split; exists []; split; reflexivity. Qed.

(** [json.loads(json.dumps(v)) == v] *)
Lemma loads_dumps (v : pyval) : wf_val v = true -> loads (dumps v) = Ret v.
Proof.
  apply loads_dumps_with; apply default_separators.
Qed.

(** Lines 47-48 applied to the bytes of line 44 give back the value. *)
Lemma from_wire_to_wire (v : pyval) :
  wf_val v = true ->
  to_wire v = Ret (ascii_bytes (request_json v))
  /\ from_wire (ascii_bytes (request_json v)) = Ret v.
Proof.
  intro Hwf. split; [ apply to_wire_ascii | ].
  unfold from_wire.
  rewrite decode_ascii by apply request_json_ascii.
  cbn [rbind]. rewrite strip_request_json. apply loads_dumps. exact Hwf.
Qed.

(** ** The framing round trip *)

(** C3, as the code has it.  For every value whose strings are well formed
    and whose dict keys are distinct, decoding the encoded line gives the
    value back, and encoding what was decoded from that line gives the line
    back: the round trip holds in both directions on the lines that the
    encoder writes. *)
Theorem framing_round_trip (v : pyval) :
  wf_val v = true ->
  let line := ascii_bytes (request_json v) in
  to_wire v = Ret line
  /\ from_wire line = Ret v
  /\ (decoded <- from_wire line ;; to_wire decoded)%res = Ret line.
Proof.
  intro Hwf. cbv zeta.
  destruct (from_wire_to_wire v Hwf) as [Hto Hfrom].
  split; [ exact Hto | split; [ exact Hfrom | ] ].
  rewrite Hfrom. exact Hto.
Qed.

Lemma framing_round_trip_witness :
  let v := PyDict (build_request 7 (py "council/ask")
                     (PyDict [(py "question", PyStr (py "X"));
                              (py "wait_for_consensus", PyBool false)])) in
  let line := ascii_bytes (request_json v) in
  to_wire v = Ret line
  /\ from_wire line = Ret v
  /\ (decoded <- from_wire line ;; to_wire decoded)%res = Ret line.
Proof.
  intro v. apply (@framing_round_trip v). reflexivity.
Defined.

(** C3 as stated fails in both directions.  A well-formed line in the compact
    form of the wire protocol is decoded, but encoding the result gives
    another line (with a space after each separator).  And a request whose
    method name holds a high surrogate followed by a low one is encoded, but
    decoding gives a request whose method name is one character. *)
Lemma framing_round_trip_fails :
  (let line := ascii_bytes (jtext "{'jsonrpc':'2.0','id':1,'result':{'tools':[]}}" ++ [NEWLINE]) in
   exists response,
     from_wire line = Ret response
     /\ to_wire response =
        Ret (ascii_bytes (jtext "{'jsonrpc': '2.0', 'id': 1, 'result': {'tools': []}}" ++ [NEWLINE]))
     /\ to_wire response <> Ret line)
  /\
  (let request := PyDict (build_request 1 [0xD83D; 0xDE00] PyNone) in
   exists line,
     to_wire request = Ret line
     /\ from_wire line = Ret (PyDict (build_request 1 [0x1F600] PyNone))
     /\ from_wire line <> Ret request).
Proof.
  split.
  - eexists. split; [ vm_compute; reflexivity | ].
    split; [ vm_compute; reflexivity | ].
    vm_compute. discriminate.
  - eexists. split; [ vm_compute; reflexivity | ].
    split; [ vm_compute; reflexivity | ].
    vm_compute. discriminate.
Qed.

(** ** The bytes of a request *)

Lemma request_json_text (id : Z) (method : pystr) (params : pyval) :
  request_json (PyDict (build_request id method params)) =
  (jtext "{'jsonrpc': '2.0', 'id': " ++ int_repr id ++
   jtext ", 'method': " ++ encode_basestring_ascii method ++
   (if truthy params then jtext ", 'params': " ++ dumps params else []) ++
   jtext "}") ++ [NEWLINE].
Proof.
  unfold request_json, build_request. f_equal.
  destruct (truthy params).
  - change (dict_set _ (py "params") params)
      with [(py "jsonrpc", PyStr (py "2.0")); (py "id", PyInt id);
            (py "method", PyStr method); (py "params", params)].
    rewrite dumps_PyDict. cbn [map join fst snd dumps].
    rewrite <- !List.app_assoc. reflexivity.
  - rewrite dumps_PyDict. cbn [map join fst snd dumps].
    rewrite <- !List.app_assoc. reflexivity.
Qed.

Lemma send_request_sends (E : environment) (method : pystr) (params : pyval)
      (st : state) :
  sock (self st) = Some Connected ->
  exists a rest,
    net (snd (send_request E method params st)) =
    net st ++
    EvSend (request_line (request_id (self st) + 1) (method, params)) a :: rest.
Proof.
  intro H. unfold request_line. cbn [fst snd].
  cases_of_send_request; try congruence;
    rewrite <- ?List.app_assoc; cbn [app]; do 2 eexists; reflexivity.
Qed.

(** C2, as the code has it.  The bytes handed to [send] for one request are
    the ASCII text
    [{"jsonrpc": "2.0", "id": <int>, "method": <name>[, "params": <params>]}]
    followed by one newline, with ", " and ": " as separators; the text is
    printable ASCII, so the only newline is the last byte; the "params"
    member is there exactly when [params] is truthy. *)
Theorem request_bytes_shape (E : environment) (method : pystr) (params : pyval)
        (st : state) :
  sock (self st) = Some Connected ->
  let text :=
    jtext "{'jsonrpc': '2.0', 'id': " ++ int_repr (request_id (self st) + 1) ++
    jtext ", 'method': " ++ encode_basestring_ascii method ++
    (if truthy params then jtext ", 'params': " ++ dumps params else []) ++
    jtext "}" in
  (exists a rest,
      net (snd (send_request E method params st)) =
      net st ++ EvSend (ascii_bytes (text ++ [NEWLINE])) a :: rest)
  /\ all_printable text
  /\ ~ In NEWLINE text
  /\ (dict_get (build_request (request_id (self st) + 1) method params) (py "params")
      = if truthy params then Some params else None).
Proof.
  intro H. cbv zeta.
  pose proof (request_json_text (request_id (self st) + 1) method params) as Htext.
  assert (Hpr : all_printable
                  (jtext "{'jsonrpc': '2.0', 'id': " ++ int_repr (request_id (self st) + 1) ++
                   jtext ", 'method': " ++ encode_basestring_ascii method ++
                   (if truthy params then jtext ", 'params': " ++ dumps params else []) ++
                   jtext "}")).
  { pose proof (dumps_printable (PyDict (build_request (request_id (self st) + 1) method params)))
      as Hd.
    unfold request_json in Htext. apply app_inj_tail in Htext.
    destruct Htext as [Htext _]. rewrite Htext in Hd. exact Hd. }
  split; [ | split; [ exact Hpr | split ] ].
  - destruct (send_request_sends E method params st H) as (a & rest & Hnet).
    exists a, rest. rewrite Hnet. unfold request_line. cbn [fst snd].
    rewrite Htext. reflexivity.
  - intro Hin. unfold all_printable in Hpr. rewrite Forall_forall in Hpr.
    specialize (Hpr _ Hin). discriminate Hpr.
  - unfold build_request. destruct (truthy params); reflexivity.
Qed.

Lemma request_bytes_shape_witness :
  let E := stub demo_replies in
  let st := connected (fresh (py "localhost") 9001) in
  let text := jtext "{'jsonrpc': '2.0', 'id': 1, 'method': 'council/get_session', 'params': {'session_id': 's1'}}" in
  (exists a rest,
      net (snd (get_session E (PyStr (py "s1")) st)) =
      net st ++ EvSend (ascii_bytes (text ++ [NEWLINE])) a :: rest)
  /\ all_printable text
  /\ ~ In NEWLINE text
  /\ (dict_get (build_request 1 (py "council/get_session")
                  (PyDict [(py "session_id", PyStr (py "s1"))])) (py "params")
      = Some (PyDict [(py "session_id", PyStr (py "s1"))])).
Proof.
  intros E st.
  apply (@request_bytes_shape E (py "council/get_session")
           (PyDict [(py "session_id", PyStr (py "s1"))]) st).
  reflexivity.
Defined.

(** C2 as stated fails when an empty mapping is passed as [params]: params
    was given, yet the bytes have no "params" member. *)
Lemma empty_params_are_not_sent :
  let E := stub demo_replies in
  let st := connected (fresh (py "localhost") 9001) in
  PyDict [] <> PyNone
  /\ outgoing (net (snd (send_request E (py "tools/list") (PyDict []) st))) =
     [ascii_bytes (jtext "{'jsonrpc': '2.0', 'id': 1, 'method': 'tools/list'}" ++ [NEWLINE])]
  /\ dict_get (build_request 1 (py "tools/list") (PyDict [])) (py "params") = None.
Proof.
  cbv zeta. split; [ discriminate | ]. split; vm_compute; reflexivity.
Qed.

(** ** Replies in the compact form of the wire protocol *)

(** Lines 47-48 on a compact line: the value comes back. *)
Lemma from_wire_compact (v : pyval) (nl : bool) :
  wf_val v = true ->
  from_wire (ascii_bytes (compact v ++ (if nl then [NEWLINE] else []))) = Ret v.
Proof.
  intro Hwf. unfold from_wire, compact.
  rewrite decode_ascii.
  - cbn [rbind]. rewrite strip_dumps_with.
    apply loads_dumps_with; [ apply compact_separators .. | exact Hwf ].
  - apply Forall_app. split.
    + eapply Forall_impl; [ | apply dumps_with_printable; repeat constructor ].
      apply printable_lt_128.
    + destruct nl; repeat constructor.
Qed.

(** A call on a connected client whose [send] is accepted and whose [recv]
    returns a decodable reply returns the decoded reply. *)
Lemma send_request_exchange (E : environment) (method : pystr) (params : pyval)
      (st : state) (got : list byte) (response : pyval) :
  sock (self st) = Some Connected ->
  (forall data, exists n, on_send E (net st) data = SendAccepts n) ->
  (forall t, on_recv E t 4096%nat = RecvReturns got) ->
  from_wire (firstn 4096 got) = Ret response ->
  fst (send_request E method params st) = Ret response.
Proof.
  intros Hs Hsend Hrecv Hfrom.
  cases_of_send_request; cbn [fst]; try congruence;
    repeat match goal with
      | H : on_send _ _ ?data = _ |- _ =>
          let n := fresh "n" in
          let Hn := fresh "Hn" in
          destruct (Hsend data) as [n Hn]; rewrite Hn in H; clear Hn
      | H : on_recv _ _ _ = _ |- _ => rewrite Hrecv in H
      end;
    try congruence.
Qed.

(** ** The askQuestion scenario *)

(** C8, as the code has it.  On a connected client whose counter stands at
    k - 1, [ask_question("X", False)] hands to [send] the line
    [{"jsonrpc": "2.0", "id": k, "method": "council/ask", "params":
    {"question": "X", "wait_for_consensus": false}}] and a newline, written
    with ", " and ": " as separators; when the stub answers with the compact
    reply of the scenario (and the reply fits the 4096 bytes of one read),
    the call returns a response whose result.session_id is "s1". *)
Theorem ask_question_scenario (E : environment) (st : state) (k : Z) (nl : bool) :
  sock (self st) = Some Connected ->
  request_id (self st) = (k - 1)%Z ->
  let reply :=
    jtext "{'jsonrpc':'2.0','id':" ++ int_repr k ++
    jtext ",'result':{'session_id':'s1','status':'pending'}}" ++
    (if nl then [NEWLINE] else []) in
  (List.length reply <= 4096)%nat ->
  (forall data, exists n, on_send E (net st) data = SendAccepts n) ->
  (forall t, on_recv E t 4096%nat = RecvReturns (ascii_bytes reply)) ->
  let out := ask_question E (py "X") false st in
  outgoing (net (snd out)) =
    outgoing (net st) ++
    [ascii_bytes
       (jtext "{'jsonrpc': '2.0', 'id': " ++ int_repr k ++
        jtext ", 'method': 'council/ask', 'params': {'question': 'X', 'wait_for_consensus': false}}"
        ++ [NEWLINE])]
  /\ exists response,
       fst out = Ret response
       /\ (result <- getitem response (py "result") ;;
           getitem result (py "session_id"))%res = Ret (PyStr (py "s1")).
Proof.
  intros Hs Hid reply Hlen Hsend Hrecv out.
  set (response :=
         PyDict [(py "jsonrpc", PyStr (py "2.0")); (py "id", PyInt k);
                 (py "result", PyDict [(py "session_id", PyStr (py "s1"));
                                       (py "status", PyStr (py "pending"))])]).
  assert (Hreply : reply = compact response ++ (if nl then [NEWLINE] else [])).
  { unfold reply, compact, response.
    rewrite dumps_with_PyDict. cbn [map join fst snd dumps_with].
    rewrite !List.app_assoc. f_equal.
    rewrite <- !List.app_assoc. reflexivity. }
  assert (Hfrom : from_wire (firstn 4096 (ascii_bytes reply)) = Ret response).
  { rewrite firstn_all2 by (unfold ascii_bytes; rewrite List.length_map; exact Hlen).
    rewrite Hreply. apply from_wire_compact. reflexivity. }
  assert (Hout : fst out = Ret response).
  { apply (@send_request_exchange E _ _ st _ response Hs Hsend Hrecv Hfrom). }
  split.
  - unfold out, ask_question in *.
    rewrite (send_request_returns _ _ _ _ Hout).
    rewrite request_json_text, Hid.
    replace (k - 1 + 1)%Z with k by lia.
    do 3 f_equal. rewrite <- !List.app_assoc. reflexivity.
  - exists response. split; [ exact Hout | reflexivity ].
Qed.

Lemma ask_question_scenario_witness :
  let E := stub (fun _ =>
                   jtext "{'jsonrpc':'2.0','id':5,'result':{'session_id':'s1','status':'pending'}}"
                   ++ [NEWLINE]) in
  let st := {| self := {| host := py "localhost"; port := 9001; request_id := 4;
                          sock := Some Connected |};
               stdout := []; stderr := []; net := [] |} in
  let out := ask_question E (py "X") false st in
  outgoing (net (snd out)) =
    [ascii_bytes
       (jtext "{'jsonrpc': '2.0', 'id': 5, 'method': 'council/ask', 'params': {'question': 'X', 'wait_for_consensus': false}}"
        ++ [NEWLINE])]
  /\ exists response,
       fst out = Ret response
       /\ (result <- getitem response (py "result") ;;
           getitem result (py "session_id"))%res = Ret (PyStr (py "s1")).
Proof.
  intros E st.
  apply (@ask_question_scenario E st 5 true).
  - reflexivity.
  - reflexivity.
  - vm_compute. lia.
  - intro data. eexists. reflexivity.
  - intro t. reflexivity.
Defined.

(** C8 as stated fails on the bytes: the line sent is not the compact line
    of the scenario (here with k = 1). *)
Lemma ask_question_line_is_not_compact :
  let E := stub demo_replies in
  let st := connected (fresh (py "localhost") 9001) in
  outgoing (net (snd (ask_question E (py "X") false st))) <>
  [ascii_bytes
     (jtext "{'jsonrpc':'2.0','id':1,'method':'council/ask','params':{'question':'X','wait_for_consensus':false}}"
      ++ [NEWLINE])].
Proof. vm_compute. discriminate. Qed.

Local Open Scope res_scope.

(** ** The decoder answers every text *)

Lemma scans_within_le {A} (m n : nat) (r : res (A * pystr)) :
  scans_within m r -> (m <= n)%nat -> scans_within n r.
Proof.
  destruct r as [ [a rest] | e | g ]; cbn; intros H Hmn; [ lia | exact H | exact H ].
Qed.

Lemma scans_within_map {A B} (n : nat) (m : res (A * pystr)) (f : A -> B) :
  scans_within n m ->
  scans_within n ('(a, r) <- m ;; Ret (f a, r)).
Proof. destruct m as [ [a rest] | e | g ]; cbn; auto. Qed.

Lemma skip_ws_length (s : pystr) : (List.length (skip_ws s) <= List.length s)%nat.
Proof.
  induction s as [ | c s IH ]; cbn [skip_ws]; [ apply Nat.le_refl | ].
  destruct (is_ws c); cbn [List.length]; lia.
Qed.

Lemma scanstring_scans (n : nat) :
  forall s, (List.length s <= n)%nat -> scans_within (List.length s) (scanstring s).
Proof.
  induction n as [ | n IH ]; intros s Hn.
  - destruct s; [ reflexivity | cbn in Hn; lia ].
  - assert (Hrec : forall (t : pystr) (c : N),
               (List.length t < List.length s)%nat ->
               scans_within (List.length s)
                 ('(str, r) <- scanstring t ;; Ret (c :: str, r))).
    { intros t c Ht. apply scans_within_map.
      apply scans_within_le with (List.length t); [ apply IH; lia | lia ]. }
    destruct s as [ | c s1 ]; [ reflexivity | ].
    cbn [scanstring].
    destruct (c =? 34); [ cbn; lia | ].
    destruct (c =? 92).
    + destruct s1 as [ | esc s2 ]; [ reflexivity | ].
      destruct (esc =? 117).
      * destruct s2 as [ | h1 [ | h2 [ | h3 [ | h4 s3 ] ] ] ]; try reflexivity.
        destruct (decode_uXXXX h1 h2 h3 h4) as [ uni | ]; [ | reflexivity ].
        destruct s3 as [ | b [ | u [ | g1 [ | g2 [ | g3 [ | g4 s4 ] ] ] ] ] ];
          try (apply Hrec; cbn [List.length]; lia).
        destruct (is_high_surrogate uni && (b =? 92) && (u =? 117));
          [ | apply Hrec; cbn [List.length]; lia ].
        destruct (decode_uXXXX g1 g2 g3 g4) as [ uni2 | ]; [ | reflexivity ].
        destruct (is_low_surrogate uni2); apply Hrec; cbn [List.length]; lia.
      * destruct (unescape esc); [ | reflexivity ].
        apply Hrec. cbn [List.length]. lia.
    + destruct (c <? 32); [ reflexivity | ].
      apply Hrec. cbn [List.length]. lia.
Qed.

Lemma span_digits_length (s : pystr) :
  (List.length (snd (span_digits s)) <= List.length s)%nat.
Proof.
  induction s as [ | c s IH ]; cbn [span_digits]; [ apply Nat.le_refl | ].
  destruct (is_digit c); [ | apply Nat.le_refl ].
  destruct (span_digits s) as [ds r]. cbn [snd List.length] in *. lia.
Qed.

Lemma match_integer_length (s ds r : pystr) :
  match_integer s = Some (ds, r) -> (List.length r < List.length s)%nat.
Proof.
  destruct s as [ | c s' ]; cbn [match_integer]; [ discriminate | ].
  destruct (c =? 48).
  - intro H. injection H as <- <-. cbn. lia.
  - destruct (is_digit c); [ | discriminate ].
    pose proof (span_digits_length s') as Hl.
    destruct (span_digits s') as [ds' r']. intro H. injection H as <- <-.
    cbn [snd List.length] in *. lia.
Qed.

Lemma match_frac_length (s r : pystr) :
  match_frac s = Some r -> (List.length r <= List.length s)%nat.
Proof.
  destruct s as [ | c s' ]; cbn [match_frac]; [ discriminate | ].
  destruct (c =? 46); [ | discriminate ].
  pose proof (span_digits_length s') as Hl.
  destruct (span_digits s') as [ [ | d ds ] r' ]; [ discriminate | ].
  intro H. injection H as <-. cbn [snd List.length] in *. lia.
Qed.

Lemma match_exp_length (s r : pystr) :
  match_exp s = Some r -> (List.length r <= List.length s)%nat.
Proof.
  destruct s as [ | c s' ]; cbn [match_exp]; [ discriminate | ].
  destruct ((c =? 101) || (c =? 69)); [ | discriminate ].
  set (s'' := match s' with
              | [] => s'
              | sg :: t => if (sg =? 43) || (sg =? 45) then t else s'
              end).
  assert (Hs'' : (List.length s'' <= List.length s')%nat).
  { unfold s''. destruct s' as [ | sg t ]; [ apply Nat.le_refl | ].
    destruct ((sg =? 43) || (sg =? 45)); cbn [List.length]; lia. }
  pose proof (span_digits_length s'') as Hl.
  destruct (span_digits s'') as [ [ | d ds ] r' ]; [ discriminate | ].
  intro H. injection H as <-. cbn [snd List.length] in *. lia.
Qed.

Lemma match_number_length (s r : pystr) (x : number) :
  match_number s = Some (x, r) -> (List.length r < List.length s)%nat.
Proof.
  unfold match_number.
  set (neg_s0 := match s with
                 | [] => (false, s)
                 | c :: s' => if c =? 45 then (true, s') else (false, s)
                 end).
  assert (Hs0 : (List.length (snd neg_s0) <= List.length s)%nat).
  { unfold neg_s0. destruct s as [ | c s' ]; [ apply Nat.le_refl | ].
    destruct (c =? 45); cbn [snd List.length]; lia. }
  destruct neg_s0 as [neg s0]. cbn [snd] in Hs0.
  destruct (match_integer s0) as [ [ds r0] | ] eqn:Hint; [ | discriminate ].
  apply match_integer_length in Hint.
  destruct (match_frac r0) as [ r1 | ] eqn:Hfrac.
  - apply match_frac_length in Hfrac.
    destruct (match_exp r1) as [ r2 | ] eqn:Hexp.
    + apply match_exp_length in Hexp. cbn [orb]. intro H. injection H as _ <-. lia.
    + cbn [orb]. intro H. injection H as _ <-. lia.
  - destruct (match_exp r0) as [ r2 | ] eqn:Hexp.
    + apply match_exp_length in Hexp. cbn [orb]. intro H. injection H as _ <-. lia.
    + cbn [orb]. intro H. injection H as _ <-. lia.
Qed.

Lemma startswith_length (p s : pystr) :
  startswith p s = true -> (List.length p <= List.length s)%nat.
Proof.
  revert s. induction p as [ | a p IH ]; intros s H; [ apply Nat.le_0_l | ].
  destruct s as [ | b s ]; [ discriminate H | ].
  cbn [startswith] in H. apply andb_prop in H. destruct H as [_ H].
  specialize (IH s H). cbn [List.length]. lia.
Qed.

Section Loops_scan.
Variable scan : pystr -> res (pyval * pystr).
Variable bound : nat.
Hypothesis Hscan :
  forall t, (List.length t <= bound)%nat -> scans_within (List.length t) (scan t).

Lemma array_loop_scans (n : nat) :
  forall (s : pystr) (acc : list pyval),
  (List.length s <= bound)%nat -> (List.length s < n)%nat ->
  scans_within (List.length s) (array_loop scan n s acc).
Proof.
  induction n as [ | n IH ]; intros s acc Hb Hn; [ lia | ].
  cbn [array_loop].
  pose proof (Hscan s Hb) as Hs.
  destruct (scan s) as [ [value s1] | e | g ]; cbn [rbind scans_within] in *;
    [ | exact Hs | exact Hs ].
  pose proof (skip_ws_length s1) as Hsk.
  destruct (skip_ws s1) as [ | nextchar s2 ]; [ reflexivity | ].
  cbn [List.length] in Hsk.
  destruct (nextchar =? 93); [ cbn; lia | ].
  destruct (nextchar =? 44); [ | reflexivity ].
  pose proof (skip_ws_length s2) as Hsk2.
  apply scans_within_le with (List.length (skip_ws s2)); [ | lia ].
  apply IH; lia.
Qed.

Lemma JSONArray_scans (s : pystr) :
  (List.length s <= bound)%nat ->
  scans_within (S (List.length s)) (JSONArray scan s).
Proof.
  intro Hb. unfold JSONArray.
  pose proof (skip_ws_length s) as Hsk.
  assert (Hloop : scans_within (S (List.length s))
                    (array_loop scan (S (List.length (skip_ws s))) (skip_ws s) [])).
  { apply scans_within_le with (List.length (skip_ws s)); [ | lia ].
    apply array_loop_scans; lia. }
  destruct (skip_ws s) as [ | nextchar s' ]; [ exact Hloop | ].
  destruct (nextchar =? 93); [ cbn [List.length scans_within] in *; lia | exact Hloop ].
Qed.

Lemma object_loop_scans (n : nat) :
  forall (s : pystr) (pairs : list (pystr * pyval)),
  (List.length s <= bound)%nat -> (List.length s < n)%nat ->
  scans_within (List.length s) (object_loop scan n s pairs).
Proof.
  induction n as [ | n IH ]; intros s pairs Hb Hn; [ lia | ].
  cbn [object_loop].
  pose proof (@scanstring_scans (List.length s) s (le_n _)) as Hkey.
  destruct (scanstring s) as [ [key s1] | e | g ]; cbn [rbind scans_within] in *;
    [ | exact Hkey | exact Hkey ].
  pose proof (skip_ws_length s1) as Hsk1.
  destruct (skip_ws s1) as [ | colon s2 ]; [ reflexivity | ].
  cbn [List.length] in Hsk1.
  destruct (colon =? 58); [ | reflexivity ].
  pose proof (skip_ws_length s2) as Hsk2.
  assert (Hv : scans_within (List.length (skip_ws s2)) (scan (skip_ws s2)))
    by (apply Hscan; lia).
  destruct (scan (skip_ws s2)) as [ [value s3] | e | g ];
    cbn [rbind scans_within] in *; [ | exact Hv | exact Hv ].
  pose proof (skip_ws_length s3) as Hsk3.
  destruct (skip_ws s3) as [ | nextchar s4 ]; [ reflexivity | ].
  cbn [List.length] in Hsk3.
  destruct (nextchar =? 125); [ cbn; lia | ].
  destruct (nextchar =? 44); [ | reflexivity ].
  pose proof (skip_ws_length s4) as Hsk4.
  destruct (skip_ws s4) as [ | q s5 ]; [ reflexivity | ].
  cbn [List.length] in Hsk4.
  destruct (q =? 34); [ | reflexivity ].
  apply scans_within_le with (List.length s5); [ | lia ].
  apply IH; lia.
Qed.

Lemma JSONObject_scans (s : pystr) :
  (List.length s <= bound)%nat ->
  scans_within (S (List.length s)) (JSONObject scan s).
Proof.
  intro Hb. unfold JSONObject.
  pose proof (skip_ws_length s) as Hsk.
  destruct (skip_ws s) as [ | nextchar s' ] eqn:E; [ reflexivity | ].
  cbn [List.length] in Hsk.
  destruct (nextchar =? 125); [ cbn; lia | ].
  destruct (nextchar =? 34); [ | reflexivity ].
  apply scans_within_le with (List.length s'); [ | lia ].
  apply object_loop_scans; cbn [List.length]; lia.
Qed.
End Loops_scan.

(** With fuel above the length of the text, [scan_once] answers, and what
    it leaves is strictly shorter than the text. *)
Lemma scan_once_scans (fuel : nat) :
  forall s, (List.length s < fuel)%nat -> scans_within (List.length s) (scan_once fuel s).
Proof.
  induction fuel as [ | fuel IH ]; intros s Hf; [ lia | ].
  cbn [scan_once].
  destruct s as [ | nextchar s' ]; [ reflexivity | ].
  cbn [List.length] in Hf.
  assert (Hscan : forall t, (List.length t <= List.length s')%nat ->
                            scans_within (List.length t) (scan_once fuel t))
    by (intros t Ht; apply IH; lia).
  destruct (nextchar =? 34).
  { apply scans_within_map.
    apply scans_within_le with (List.length s');
      [ apply (@scanstring_scans (List.length s') s' (le_n _)) | cbn [List.length]; lia ]. }
  destruct (nextchar =? 123).
  { apply (@JSONObject_scans (scan_once fuel) (List.length s') Hscan s'). apply Nat.le_refl. }
  destruct (nextchar =? 91).
  { apply (@JSONArray_scans (scan_once fuel) (List.length s') Hscan s'). apply Nat.le_refl. }
  destruct (startswith (py "null") (nextchar :: s')) eqn:E1.
  { apply startswith_length in E1. cbn [scans_within].
    rewrite List.length_skipn. cbn [List.length py map list_ascii_of_string] in *. lia. }
  destruct (startswith (py "true") (nextchar :: s')) eqn:E2.
  { apply startswith_length in E2. cbn [scans_within].
    rewrite List.length_skipn. cbn [List.length py map list_ascii_of_string] in *. lia. }
  destruct (startswith (py "false") (nextchar :: s')) eqn:E3.
  { apply startswith_length in E3. cbn [scans_within].
    rewrite List.length_skipn. cbn [List.length py map list_ascii_of_string] in *. lia. }
  destruct (match_number (nextchar :: s')) as [ [ [z | ] r] | ] eqn:Hnum.
  - apply match_number_length in Hnum. exact Hnum.
  - reflexivity.
  - destruct (_ || _); reflexivity.
Qed.

(** [json.loads] returns a value or raises JSONDecodeError (or the text
    holds a float, which the model does not evaluate). *)
Lemma loads_outcome (s : pystr) :
  (exists v, loads s = Ret v) \/ loads s = Raise JSONDecodeError
  \/ loads s = Unmodelled FloatValue.
Proof.
  unfold loads. destruct (startswith [0xFEFF] s); [ right; left; reflexivity | ].
  unfold JSONDecoder_decode.
  pose proof (skip_ws_length s) as Hsk.
  pose proof (@scan_once_scans (S (List.length s)) (skip_ws s)) as H.
  destruct (scan_once (S (List.length s)) (skip_ws s)) as [ [obj r] | e | g ];
    cbn [rbind scans_within] in *.
  - destruct (skip_ws r); [ left; eexists; reflexivity | right; left; reflexivity ].
  - right; left. rewrite H by lia. reflexivity.
  - right; right. rewrite H by lia. reflexivity.
Qed.

Lemma decode_outcome (bs : list byte) :
  (exists s, decode bs = Ret s) \/ decode bs = Raise UnicodeDecodeError.
Proof.
  assert (H : forall n bs, (List.length bs <= n)%nat ->
                           (exists s, decode bs = Ret s)
                           \/ decode bs = Raise UnicodeDecodeError).
  { clear bs. induction n as [ | n IH ]; intros bs Hn.
    - destruct bs; [ left; eexists; reflexivity | cbn in Hn; lia ].
    - assert (Hrec : forall (t : list byte) (c : N),
                 (List.length t <= n)%nat ->
                 (exists s, rmap (cons c) (decode t) = Ret s)
                 \/ rmap (cons c) (decode t) = Raise UnicodeDecodeError).
      { intros t c Ht. destruct (IH t Ht) as [ [s ->] | -> ];
          [ left; eexists; reflexivity | right; reflexivity ]. }
      destruct bs as [ | b0 r0 ]; [ left; eexists; reflexivity | ].
      cbn [decode List.length] in *.
      destruct (Byte.to_N b0 <? 0x80); [ apply Hrec; lia | ].
      destruct (Byte.to_N b0 <? 0xC2); [ right; reflexivity | ].
      destruct (Byte.to_N b0 <? 0xE0).
      { destruct r0 as [ | b1 r1 ]; [ right; reflexivity | ].
        destruct (is_continuation b1); [ | right; reflexivity ].
        apply Hrec. cbn [List.length] in Hn. lia. }
      destruct (Byte.to_N b0 <? 0xF0).
      { destruct r0 as [ | b1 [ | b2 r2 ] ]; try (right; reflexivity).
        destruct (_ && _); [ | right; reflexivity ].
        apply Hrec. cbn [List.length] in Hn. lia. }
      destruct (Byte.to_N b0 <? 0xF5); [ | right; reflexivity ].
      destruct r0 as [ | b1 [ | b2 [ | b3 r3 ] ] ]; try (right; reflexivity).
      destruct (_ && _); [ | right; reflexivity ].
      apply Hrec. cbn [List.length] in Hn. lia. }
  apply (H (List.length bs)). apply Nat.le_refl.
Qed.

(** ** Decoding a reply *)

Lemma from_wire_outcome (received : list byte) :
  (exists response, from_wire received = Ret response)
  \/ from_wire received = Raise UnicodeDecodeError
  \/ from_wire received = Raise JSONDecodeError
  \/ from_wire received = Unmodelled FloatValue.
Proof.
  unfold from_wire.
  destruct (decode_outcome received) as [ [s ->] | -> ]; cbn [rbind].
  - destruct (loads_outcome (strip s)) as [ [v ->] | [ -> | -> ] ].
    + left. eexists. reflexivity.
    + right; right; left. reflexivity.
    + right; right; right. reflexivity.
  - right; left. reflexivity.
Qed.

Lemma truncated_reply_fails :
  let text := jtext "{'jsonrpc':'2.0','id':1,'result':{'tools':[]}}" in
  forall n, (n < List.length text)%nat ->
            from_wire (ascii_bytes (firstn n text)) = Raise JSONDecodeError.
Proof.
  intros text n Hn.
  assert (Hall : forallb
                   (fun k => match from_wire (ascii_bytes (firstn k text)) with
                             | Raise JSONDecodeError => true
                             | _ => false
                             end)
                   (seq 0 (List.length text)) = true)
    by (vm_compute; reflexivity).
  rewrite forallb_forall in Hall.
  specialize (Hall n). rewrite in_seq in Hall.
  specialize (Hall (conj (Nat.le_0_l n) Hn)).
  destruct (from_wire (ascii_bytes (firstn n text))) as [ v | [ ] | g ];
    try discriminate Hall.
  reflexivity.
Qed.

(** C4, as the code has it.  Decoding a reply (lines 47-48) ends in one of
    three ways for every byte sequence: a value, UnicodeDecodeError when the
    bytes are not UTF-8, JSONDecodeError when the stripped text is not a
    JSON text that [json.loads] accepts (every truncation of the reply of
    the tools/list scenario is such a text).  No member is required: every
    well-formed value, with or without "id" and "jsonrpc", is decoded from
    its line and returned as it is. *)
Theorem reply_decoding (received : list byte) :
  ((exists response, from_wire received = Ret response)
   \/ from_wire received = Raise UnicodeDecodeError
   \/ from_wire received = Raise JSONDecodeError
   \/ from_wire received = Unmodelled FloatValue)
  /\ (forall n,
        (n < List.length (jtext "{'jsonrpc':'2.0','id':1,'result':{'tools':[]}}"))%nat ->
        from_wire (ascii_bytes
                     (firstn n (jtext "{'jsonrpc':'2.0','id':1,'result':{'tools':[]}}")))
        = Raise JSONDecodeError)
  /\ (forall (v : pyval) (nl : bool),
        wf_val v = true ->
        from_wire (ascii_bytes (compact v ++ (if nl then [NEWLINE] else []))) = Ret v)
  /\ (forall (E : environment) (method : pystr) (params : pyval) (st : state)
             (response : pyval),
        sock (self st) = Some Connected ->
        (forall data, exists n, on_send E (net st) data = SendAccepts n) ->
        (forall t, on_recv E t 4096%nat = RecvReturns received) ->
        from_wire (firstn 4096 received) = Ret response ->
        fst (send_request E method params st) = Ret response).
Proof.
  split; [ apply from_wire_outcome | ].
  split; [ apply truncated_reply_fails | ].
  split; [ intros v nl Hwf; apply from_wire_compact; exact Hwf | ].
  intros E method params st response. apply send_request_exchange.
Qed.

(** C4 as stated fails on a reply that has neither "id" nor "jsonrpc": it
    is decoded, and [list_tools] returns it. *)
Lemma missing_fields_are_not_checked :
  let reply := jtext "{'result':{'tools':[]}}" ++ [NEWLINE] in
  let response := PyDict [(py "result", PyDict [(py "tools", PyList [])])] in
  from_wire (ascii_bytes reply) = Ret response
  /\ getitem response (py "id") = Raise KeyError
  /\ getitem response (py "jsonrpc") = Raise KeyError
  /\ fst (list_tools (stub (fun _ => reply)) (connected (fresh (py "localhost") 9001)))
     = Ret response.
Proof. cbv zeta. repeat split; vm_compute; reflexivity. Qed.

Lemma reply_decoding_witness :
  let text := jtext "{'jsonrpc':'2.0','id':1,'result':{'tools':[]}}" in
  let response :=
    PyDict [(py "jsonrpc", PyStr (py "2.0")); (py "id", PyInt 1);
            (py "result", PyDict [(py "tools", PyList [])])] in
  from_wire (ascii_bytes (firstn 20 text)) = Raise JSONDecodeError
  /\ from_wire (ascii_bytes (compact response ++ [NEWLINE])) = Ret response
  /\ fst (list_tools (stub (fun _ => text ++ [NEWLINE]))
            (connected (fresh (py "localhost") 9001))) = Ret response.
Proof.
  intros text response.
  destruct (reply_decoding (ascii_bytes (text ++ [NEWLINE])))
    as (_ & Hcut & Hline & Hcall).
  split; [ | split ].
  - apply (Hcut 20%nat). vm_compute. lia.
  - apply (Hline response true). reflexivity.
  - apply (Hcall (stub (fun _ => text ++ [NEWLINE])) (py "tools/list") PyNone
             (connected (fresh (py "localhost") 9001)) response).
    + reflexivity.
    + intro data. eexists. reflexivity.
    + intro t. reflexivity.
    + vm_compute. reflexivity.
Defined.
